(** * ligolo-ng: the agent dispatcher and the userland stack host

    A shallow embedding of [cmd/agent/main.go] (the agent's session
    dispatcher and its listener registry) and of the [netstack] package
    (tun-connections, the forwarder callbacks and the construction of the
    gVisor stack), with the properties the specification states about them.

    Conventions.  Go's [int32] is a [Z] with its wrap-around written out;
    Go maps are [gmap]s; every call that leaves the process (decode, encode,
    dial, listen, accept, close, the operating system's lookups) is answered
    by an environment record, and what a handler does to the outside world is
    the list of events it emits, in program order. *)

From Stdlib Require Import ZArith List Lia.
From stdpp Require Import gmap strings list pretty.

Open Scope string_scope.
Open Scope Z_scope.
Open Scope list_scope.

(** ** Handles

    Sockets, session streams and server sockets are opaque to the agent:
    it stores them, hands them to the relay and closes them.  A handle is
    a number, as a file descriptor is. *)

Definition Conn := Z.
Definition Listener := Z.

(** ** The wire protocol, package [protocol] *)

Module protocol.

(** Modelled from the spec: the envelope types of section 6.1.  The
    package [ligolo-ng/pkg/protocol] declares them; the dispatcher only
    compares the envelope's type with these names. *)
Inductive MessageType :=
| MessageConnectRequest
| MessageConnectResponse
| MessageHostPingRequest
| MessageHostPingResponse
| MessageInfoRequest
| MessageInfoReply
| MessageListenerRequest
| MessageListenerResponse
| MessageListenerBindResponse
| MessageListenerSockRequest
| MessageListenerSockResponse
| MessageListenerCloseRequest
| MessageListenerCloseResponse
| MessageClose.

(** Modelled from the spec: transport is one of tcp, udp and family one
    of v4, v6 (section 6.1, ConnectRequest). *)
Inductive TransportKind := TransportTCP | TransportUDP.
Inductive NetworkKind := Networkv4 | Networkv6.

Record ConnectRequestPacket := {
  creq_Net : NetworkKind;
  creq_Transport : TransportKind;
  creq_Address : string;
  creq_Port : N
}.

Record ConnectResponsePacket := {
  Established : bool;
  Reset : bool
}.

Record HostPingRequestPacket := { ping_Address : string }.
Record HostPingResponsePacket := { Alive : bool }.

Record NetInterface := {
  if_Name : string;
  if_Addresses : list string;
  if_HardwareAddr : string;
  if_MTU : Z
}.

Record InfoReplyPacket := {
  Name : string;
  Interfaces : list NetInterface
}.

Record ListenerRequestPacket := {
  lreq_Network : string;
  lreq_Address : string
}.

Record ListenerResponsePacket := {
  lresp_ListenerID : Z;
  lresp_Err : bool;
  lresp_ErrString : string
}.

Record ListenerBindReponse := {
  bind_SockID : Z;
  bind_Err : bool;
  bind_ErrString : string
}.

Record ListenerSockRequestPacket := { sreq_SockID : Z }.

Record ListenerSockResponsePacket := {
  sresp_Err : bool;
  sresp_ErrString : string
}.

Record ListenerCloseRequestPacket := { clreq_ListenerID : Z }.

Record ListenerCloseResponsePacket := {
  clresp_Err : bool;
  clresp_ErrString : string
}.

(** [Envelope.Payload] is an [interface{}]: a tagged union of the packet
    structs, taken apart by a type assertion. *)
Inductive PayloadT :=
| PConnectRequest (p : ConnectRequestPacket)
| PConnectResponse (p : ConnectResponsePacket)
| PHostPingRequest (p : HostPingRequestPacket)
| PHostPingResponse (p : HostPingResponsePacket)
| PInfoRequest
| PInfoReply (p : InfoReplyPacket)
| PListenerRequest (p : ListenerRequestPacket)
| PListenerResponse (p : ListenerResponsePacket)
| PListenerBindReponse (p : ListenerBindReponse)
| PListenerSockRequest (p : ListenerSockRequestPacket)
| PListenerSockResponse (p : ListenerSockResponsePacket)
| PListenerCloseRequest (p : ListenerCloseRequestPacket)
| PListenerCloseResponse (p : ListenerCloseResponsePacket)
| PClose.

Record Envelope := {
  Type_ : MessageType;
  Payload : PayloadT
}.

End protocol.

Import protocol.

(** ** The agent, [cmd/agent/main.go] *)

Module agent.

(** *** What the agent does to the world *)

Inductive Level := DebugLevel | ErrorLevel | FatalLevel.

Inductive Event :=
| EvLog (lvl : Level) (msg : string)
| EvDial (network address : string) (timeout : Z)
| EvEncode (stream : Conn) (e : Envelope)
| EvRelay (a b : Conn)
| EvListen (network address : string)
| EvListenerClose (l : Listener).

(** How one run of a handler ends.  [logrus.Fatal] logs and calls
    [os.Exit(1)]; [Blocked] is a handler still waiting in its accept
    loop. *)
Inductive Outcome :=
| Returned
| Panicked (msg : string)
| Exited (code : Z)
| Blocked.

(** Every handler runs in a goroutine of its own ([go handleConn(conn)]
    in [main]) and nothing in the program recovers: a panic in a handler
    ends the program, as [os.Exit] does. *)
Definition terminates_process (o : Outcome) : bool :=
  match o with
  | Panicked _ | Exited _ => true
  | Returned | Blocked => false
  end.

(** *** The package-level variables *)

Record Globals := {
  listenerConntrack : gmap Z Conn;
  listenerMap : gmap Z Listener;
  connTrackID : Z;
  listenerID : Z
}.

(** [main] makes both maps; the counters start at Go's zero value. *)
Definition initGlobals : Globals :=
  {| listenerConntrack := ∅; listenerMap := ∅; connTrackID := 0; listenerID := 0 |}.

(** [x++] on an [int32]. *)
Definition wrap32 (x : Z) : Z := (x + 2 ^ 31) mod 2 ^ 32 - 2 ^ 31.
Definition incr32 (x : Z) : Z := wrap32 (x + 1).

(** *** The environment of one session *)

(** A failed dial: the error's text, and the [syscall.Errno] that
    [errors.As] finds in its chain, if there is one. *)
Record DialError := {
  de_msg : string;
  de_errno : option Z
}.

Record User := { Username : string }.

(** [net.Interface], as far as [protocol.NewNetInterfaces] reads it. *)
Record Interface := {
  ni_Name : string;
  ni_Addrs : list string;
  ni_HardwareAddr : string;
  ni_MTU : Z
}.

Record Env := {
  (** [decoder.Decode()]: an error, or the envelope read from the stream *)
  Decode : Conn → string + Envelope;
  (** [encoder.Encode(e)]: the error, if the write fails *)
  Encode : Conn → Envelope → option string;
  (** [d.DialContext(ctx, network, address)], [ctx] carrying the deadline *)
  DialContext : string → string → Z → DialError + Conn;
  (** [neterror.HostResponded] *)
  HostResponded : Z → bool;
  (** [smartping.TryResolve] *)
  TryResolve : string → bool;
  (** [os.Hostname()] *)
  Hostname : string + string;
  (** [user.Current()]: the user is [nil] when there is an error *)
  Current : string + User;
  (** [net.Interfaces()] *)
  net_Interfaces : string + list Interface;
  (** [protocol.NewNetInterfaces] *)
  NewNetInterfaces : list Interface → list NetInterface;
  (** [net.Listen(network, addr)] *)
  net_Listen : string → string → string + Listener;
  (** [lis.Close()] *)
  Close : Listener → option string;
  (** what the new listener's [Accept] returns, call after call: these
      sockets, then [accept_error] if the listener fails or is closed *)
  accepted : list Conn;
  accept_error : option string
}.

(** *** A state, trace and abort monad for the handlers *)

Inductive Res (A : Type) :=
| Val (a : A)
| Halt (o : Outcome).
Arguments Val {A} a.
Arguments Halt {A} o.

Definition M (A : Type) : Type := Globals → Res A * Globals * list Event.

Definition ret {A} (a : A) : M A := λ g, (Val a, g, []).

Definition bind {A B} (m : M A) (f : A → M B) : M B :=
  λ g, match m g with
       | (Val a, g1, t1) =>
           match f a g1 with
           | (r, g2, t2) => (r, g2, t1 ++ t2)
           end
       | (Halt o, g1, t1) => (Halt o, g1, t1)
       end.

Definition emit (e : Event) : M unit := λ g, (Val tt, g, [e]).
Definition halt {A} (o : Outcome) : M A := λ g, (Halt o, g, []).
(** Reading and assigning the package-level variables. *)
Definition gets {A} (f : Globals → A) : M A := λ g, (Val (f g), g, []).
Definition modify (f : Globals → Globals) : M unit := λ g, (Val tt, f g, []).

Declare Scope agent_scope.
Delimit Scope agent_scope with agent.
Notation "'let*' x ':=' m 'in' k" := (bind m (λ x, k))
  (at level 10, x name, m at level 100, k at level 200) : agent_scope.
Notation "m '>>' k" := (bind m (λ _, k))
  (at level 100, k at level 200, right associativity) : agent_scope.
Open Scope agent_scope.

(** [panic(v)] and [logrus.Fatal(v)]. *)
Definition panic {A} (msg : string) : M A := halt (Panicked msg).
Definition logrus_Fatal {A} (msg : string) : M A :=
  emit (EvLog FatalLevel msg) >> halt (Exited 1).
Definition logrus_Error (msg : string) : M unit := emit (EvLog ErrorLevel msg).
Definition logrus_Debug (msg : string) : M unit := emit (EvLog DebugLevel msg).

(** The outcome, the globals and the events of a handler run. *)
Definition run (m : M unit) (g : Globals) : Outcome * Globals * list Event :=
  match m g with
  | (Val _, g1, t) => (Returned, g1, t)
  | (Halt o, g1, t) => (o, g1, t)
  end.

(** *** The calls the handlers make *)

(** [time.Second], in nanoseconds. *)
Definition Second : Z := 1000000000.

(** [fmt.Sprintf("%s:%d", address, port)] *)
Definition Sprintf_host_port (address : string) (port : N) : string :=
  address +:+ ":" +:+ pretty port.

(** [encoder.Encode(envelope)] on the session's stream; the value is the
    error. *)
Definition encode (env : Env) (conn : Conn) (e : Envelope) : M (option string) :=
  emit (EvEncode conn e) >> ret (Encode env conn e).

(** [relay.StartRelay(a, conn)]; [a] is a Go interface value that may be
    [nil]. *)
Definition StartRelay (a : option Conn) (conn : Conn) : M unit :=
  match a with
  | Some a => emit (EvRelay a conn)
  | None => panic "invalid memory address or nil pointer dereference"
  end.

(** A failed type assertion [e.(T)] panics. *)
Definition bad_assertion {A} : M A := panic "interface conversion".

Definition is_err {A} (err : option A) : bool :=
  match err with Some _ => true | None => false end.

(** *** [handleConn], case by case *)

Section handlers.
Variable env : Env.
Variable conn : Conn.

(** [NewListener], lines 82-88. *)
Definition NewListener (network addr : string) : M (string + Listener) :=
  emit (EvListen network addr) >> ret (net_Listen env network addr).

(** [Close] of a listener, lines 104-106: the value is the error. *)
Definition Listener_Close (lis : Listener) : M (option string) :=
  emit (EvListenerClose lis) >> ret (Close env lis).

(** [case protocol.MessageConnectRequest], lines 117-162. *)
Definition caseConnectRequest (e : PayloadT) : M unit :=
  match e with
  | PConnectRequest connRequest =>
      logrus_Debug ("Got connect request to " +:+
        Sprintf_host_port (creq_Address connRequest) (creq_Port connRequest)) >>
      let network :=
        match creq_Transport connRequest with
        | TransportTCP => "tcp"
        | _ => "udp"
        end in
      let network :=
        match creq_Net connRequest with
        | Networkv4 => network +:+ "4"
        | _ => network +:+ "6"
        end in
      let address := Sprintf_host_port (creq_Address connRequest) (creq_Port connRequest) in
      emit (EvDial network address (5 * Second)) >>
      let dialled := DialContext env network address (5 * Second) in
      let targetConn := match dialled with inr c => Some c | inl _ => None end in
      let connectPacket := {| Established := false; Reset := false |} in
      let connectPacket :=
        match dialled with
        | inl err =>
            let connectPacket :=
              match de_errno err with
              | Some serr =>
                  if HostResponded env serr
                  then {| Established := Established connectPacket; Reset := true |}
                  else connectPacket
              | None => connectPacket
              end in
            {| Established := false; Reset := Reset connectPacket |}
        | inr _ =>
            {| Established := true; Reset := Reset connectPacket |}
        end in
      let* err := encode env conn
        {| Type_ := MessageConnectResponse; Payload := PConnectResponse connectPacket |} in
      match err with
      | Some err => logrus_Fatal err
      | None =>
          if Established connectPacket
          then StartRelay targetConn conn
          else ret tt
      end
  | _ => bad_assertion
  end.

(** [case protocol.MessageHostPingRequest], lines 163-174. *)
Definition caseHostPingRequest (e : PayloadT) : M unit :=
  match e with
  | PHostPingRequest pingRequest =>
      let pingResponse := {| Alive := TryResolve env (ping_Address pingRequest) |} in
      let* err := encode env conn
        {| Type_ := MessageHostPingResponse; Payload := PHostPingResponse pingResponse |} in
      match err with
      | Some err => logrus_Fatal err
      | None => ret tt
      end
  | _ => bad_assertion
  end.

(** [case protocol.MessageInfoRequest], lines 175-205.  The second
    [if err != nil] reads the error of [os.Hostname]: the error of
    [user.Current] was assigned to the blank identifier. *)
Definition caseInfoRequest : M unit :=
  let err := match Hostname env with inl err => Some err | inr _ => None end in
  let hostname := match Hostname env with inl _ => "" | inr h => h end in
  let hostname := if is_err err then "UNKNOWN" else hostname in
  let userinfo := match Current env with inl _ => None | inr u => Some u end in
  let* username :=
    if is_err err then ret "Unknown"
    else match userinfo with
         | Some u => ret (Username u)
         | None => panic "invalid memory address or nil pointer dereference"
         end in
  match net_Interfaces env with
  | inl _ => logrus_Error "could not get network interfaces"
  | inr netifaces =>
      let infoResponse :=
        {| Name := username +:+ "@" +:+ hostname;
           Interfaces := NewNetInterfaces env netifaces |} in
      let* err := encode env conn
        {| Type_ := MessageInfoReply; Payload := PInfoReply infoResponse |} in
      match err with
      | Some err => logrus_Fatal err
      | None => ret tt
      end
  end.

(** [case protocol.MessageListenerCloseRequest], lines 206-230. *)
Definition caseListenerCloseRequest (e : PayloadT) : M unit :=
  match e with
  | PListenerCloseRequest closeRequest =>
      let* found := gets (λ g, listenerMap g !! clreq_ListenerID closeRequest) in
      let* err :=
        match found with
        | Some lis => Listener_Close lis
        | None => ret (Some "invalid listener id")
        end in
      let listenerResponse :=
        {| clresp_Err := is_err err; clresp_ErrString := "" |} in
      let listenerResponse :=
        match err with
        | Some msg => {| clresp_Err := clresp_Err listenerResponse; clresp_ErrString := msg |}
        | None => listenerResponse
        end in
      let* err := encode env conn
        {| Type_ := MessageListenerCloseResponse;
           Payload := PListenerCloseResponse listenerResponse |} in
      match err with
      | Some err => logrus_Error err
      | None => ret tt
      end
  | _ => bad_assertion
  end.

(** [encoder.Encode] followed by [logrus.Error(err)] on failure. *)
Definition encode_or_log (e : Envelope) : M unit :=
  let* err := encode env conn e in
  match err with
  | Some err => logrus_Error err
  | None => ret tt
  end.

(** One turn of the loop of [ListenAndServe], lines 93-99, for an
    [Accept] that returns the socket [c]: [connTrackID] is incremented
    and sent on [connTrackChan], then the socket is stored under
    [connTrackID].  The value is what was sent. *)
Definition ListenAndServe_turn (c : Conn) : M Z :=
  modify (λ g,
    {| listenerConntrack := listenerConntrack g; listenerMap := listenerMap g;
       connTrackID := incr32 (connTrackID g); listenerID := listenerID g |}) >>
  let* sent := gets connTrackID in
  modify (λ g,
    {| listenerConntrack := <[connTrackID g := c]> (listenerConntrack g);
       listenerMap := listenerMap g;
       connTrackID := connTrackID g; listenerID := listenerID g |}) >>
  ret sent.

(** One accepted socket, in program order: the turn of [ListenAndServe],
    then the turn of the handler's loop whose [select] receives the id,
    lines 286-298.  The two goroutines are taken one after the other, and
    no other listener's turn comes between the send and the store. *)
Definition acceptOne (c : Conn) : M unit :=
  let* connTrackID := ListenAndServe_turn c in
  let bindResponse :=
    {| bind_SockID := connTrackID; bind_Err := false; bind_ErrString := "" |} in
  encode_or_log
    {| Type_ := MessageListenerBindResponse; Payload := PListenerBindReponse bindResponse |}.

(** The [for]/[select] loop over the sockets the listener accepts. *)
Fixpoint acceptLoop (conns : list Conn) : M unit :=
  match conns with
  | [] => ret tt
  | c :: conns => acceptOne c >> acceptLoop conns
  end.

(** [case protocol.MessageListenerRequest], lines 232-304.  The handler
    leaves its loop when [ListenAndServe] has returned an error; until
    then it waits. *)
Definition caseListenerRequest (e : PayloadT) : M unit :=
  match e with
  | PListenerRequest listenRequest =>
      let* listener :=
        NewListener (lreq_Network listenRequest) (lreq_Address listenRequest) in
      match listener with
      | inl err =>
          let listenerResponse :=
            {| lresp_ListenerID := 0; lresp_Err := true; lresp_ErrString := err |} in
          encode_or_log
            {| Type_ := MessageListenerResponse;
               Payload := PListenerResponse listenerResponse |}
      | inr listener =>
          let* id := gets listenerID in
          let listenerResponse :=
            {| lresp_ListenerID := id; lresp_Err := false; lresp_ErrString := "" |} in
          modify (λ g,
            {| listenerConntrack := listenerConntrack g;
               listenerMap := <[listenerID g := listener]> (listenerMap g);
               connTrackID := connTrackID g;
               listenerID := incr32 (listenerID g) |}) >>
          encode_or_log
            {| Type_ := MessageListenerResponse;
               Payload := PListenerResponse listenerResponse |} >>
          acceptLoop (accepted env) >>
          match accept_error env with
          | None => halt Blocked
          | Some err =>
              logrus_Error err >>
              let bindResponse :=
                {| bind_SockID := 0; bind_Err := true; bind_ErrString := err |} in
              encode_or_log
                {| Type_ := MessageListenerBindResponse;
                   Payload := PListenerBindReponse bindResponse |} >>
              (* break; the deferred listener.Close() *)
              Listener_Close listener >> ret tt
          end
      end
  | _ => bad_assertion
  end.

(** [case protocol.MessageListenerSockRequest], lines 305-328. *)
Definition caseListenerSockRequest (e : PayloadT) : M unit :=
  match e with
  | PListenerSockRequest sockRequest =>
      let* found := gets (λ g, listenerConntrack g !! sreq_SockID sockRequest) in
      let sockResponse := {| sresp_Err := false; sresp_ErrString := "" |} in
      let sockResponse :=
        match found with
        | None => {| sresp_Err := true; sresp_ErrString := "invalid or unexistant SockID" |}
        | Some _ => sockResponse
        end in
      let* err := encode env conn
        {| Type_ := MessageListenerSockResponse;
           Payload := PListenerSockResponse sockResponse |} in
      match err with
      | Some err => logrus_Fatal err
      | None =>
          if sresp_Err sockResponse then ret tt
          else
            let* netConn := gets (λ g, listenerConntrack g !! sreq_SockID sockRequest) in
            StartRelay netConn conn
      end
  | _ => bad_assertion
  end.

(** [handleConn], lines 108-334. *)
Definition handleConn_body : M unit :=
  match Decode env conn with
  | inl err => panic err
  | inr envelope =>
      let e := Payload envelope in
      match Type_ envelope with
      | MessageConnectRequest => caseConnectRequest e
      | MessageHostPingRequest => caseHostPingRequest e
      | MessageInfoRequest => caseInfoRequest
      | MessageListenerCloseRequest => caseListenerCloseRequest e
      | MessageListenerRequest => caseListenerRequest e
      | MessageListenerSockRequest => caseListenerSockRequest e
      | MessageClose => halt (Exited 0)
      | _ => ret tt
      end
  end.

End handlers.

Definition handleConn (env : Env) (conn : Conn) (g : Globals)
  : Outcome * Globals * list Event :=
  run (handleConn_body env conn) g.

(** The [for] loop of [main], lines 65-72, over the sessions the
    multiplexer accepts, each one served to the end of its handler; the
    loop is over as soon as a handler ends the program. *)
Inductive Process :=
| Serving
| Ended (o : Outcome).

Fixpoint serve (sessions : list (Env * Conn)) (g : Globals)
  : Process * Globals * list Event :=
  match sessions with
  | [] => (Serving, g, [])
  | (env, conn) :: sessions =>
      match handleConn env conn g with
      | (o, g1, t1) =>
          if terminates_process o then (Ended o, g1, t1)
          else match serve sessions g1 with
               | (p, g2, t2) => (p, g2, t1 ++ t2)
               end
      end
  end.

(** *** Concrete environments, for running the handlers *)

Definition quietEnv : Env :=
  {| Decode := λ _, inl "EOF";
     Encode := λ _ _, None;
     DialContext := λ _ _ _, inl {| de_msg := "i/o timeout"; de_errno := None |};
     HostResponded := λ errno, (errno =? 111) || (errno =? 104);
     TryResolve := λ _, false;
     Hostname := inr "box";
     Current := inr {| Username := "root" |};
     net_Interfaces := inr [];
     NewNetInterfaces := λ _, [];
     net_Listen := λ _ _, inl "address already in use";
     Close := λ _, None;
     accepted := [];
     accept_error := None |}.

Definition withRequest (env : Env) (t : MessageType) (p : PayloadT) : Env :=
  {| Decode := λ _, inr {| Type_ := t; Payload := p |};
     Encode := Encode env;
     DialContext := DialContext env;
     HostResponded := HostResponded env;
     TryResolve := TryResolve env;
     Hostname := Hostname env;
     Current := Current env;
     net_Interfaces := net_Interfaces env;
     NewNetInterfaces := NewNetInterfaces env;
     net_Listen := net_Listen env;
     Close := Close env;
     accepted := accepted env;
     accept_error := accept_error env |}.

Definition withDial (env : Env) (r : DialError + Conn) : Env :=
  {| Decode := Decode env;
     Encode := Encode env;
     DialContext := λ _ _ _, r;
     HostResponded := HostResponded env;
     TryResolve := TryResolve env;
     Hostname := Hostname env;
     Current := Current env;
     net_Interfaces := net_Interfaces env;
     NewNetInterfaces := NewNetInterfaces env;
     net_Listen := net_Listen env;
     Close := Close env;
     accepted := accepted env;
     accept_error := accept_error env |}.

Definition withListener (env : Env) (r : string + Listener) (conns : list Conn)
    (stop : option string) : Env :=
  {| Decode := Decode env;
     Encode := Encode env;
     DialContext := DialContext env;
     HostResponded := HostResponded env;
     TryResolve := TryResolve env;
     Hostname := Hostname env;
     Current := Current env;
     net_Interfaces := net_Interfaces env;
     NewNetInterfaces := NewNetInterfaces env;
     net_Listen := λ _ _, r;
     Close := Close env;
     accepted := conns;
     accept_error := stop |}.

Definition withHost (env : Env) (host : string + string) (user : string + User) : Env :=
  {| Decode := Decode env;
     Encode := Encode env;
     DialContext := DialContext env;
     HostResponded := HostResponded env;
     TryResolve := TryResolve env;
     Hostname := host;
     Current := user;
     net_Interfaces := net_Interfaces env;
     NewNetInterfaces := NewNetInterfaces env;
     net_Listen := net_Listen env;
     Close := Close env;
     accepted := accepted env;
     accept_error := accept_error env |}.

Definition connectTo (address : string) (port : N) : ConnectRequestPacket :=
  {| creq_Net := Networkv4; creq_Transport := TransportTCP;
     creq_Address := address; creq_Port := port |}.

(** A dial of 10.0.0.5:81 that is refused (ECONNREFUSED is 111), and one
    of 10.0.0.5:80 that is answered by socket 9. *)
Definition refusedEnv : Env :=
  withDial (withRequest quietEnv MessageConnectRequest
              (PConnectRequest (connectTo "10.0.0.5" 81)))
           (inl {| de_msg := "connection refused"; de_errno := Some 111 |}).

Definition acceptedEnv : Env :=
  withDial (withRequest quietEnv MessageConnectRequest
              (PConnectRequest (connectTo "10.0.0.5" 80)))
           (inr 9).

Definition pingEnv : Env :=
  withRequest quietEnv MessageHostPingRequest
    (PHostPingRequest {| ping_Address := "10.0.0.5" |}).

(** A listener request on 0.0.0.0:2222 that gives server socket 5, which
    accepts socket 42 and then waits. *)
Definition listenEnv : Env :=
  withListener
    (withRequest quietEnv MessageListenerRequest
       (PListenerRequest {| lreq_Network := "tcp"; lreq_Address := "0.0.0.0:2222" |}))
    (inr 5) [42] None.

Definition sockEnv (id : Z) : Env :=
  withRequest quietEnv MessageListenerSockRequest
    (PListenerSockRequest {| sreq_SockID := id |}).

Definition closeEnv (id : Z) : Env :=
  withRequest quietEnv MessageListenerCloseRequest
    (PListenerCloseRequest {| clreq_ListenerID := id |}).

(** The package-level variables after the session of [listenEnv]. *)
Definition parkedGlobals : Globals :=
  {| listenerConntrack := {[ 1 := 42 ]}; listenerMap := {[ 0 := 5 ]};
     connTrackID := 1; listenerID := 1 |}.

(** An info request on a host whose name cannot be read, and one for a
    process whose user cannot be looked up. *)
Definition hostlessEnv : Env :=
  withHost (withRequest quietEnv MessageInfoRequest PInfoRequest)
    (inl "hostname: not available") (inr {| Username := "root" |}).

Definition userlessEnv : Env :=
  withHost (withRequest quietEnv MessageInfoRequest PInfoRequest)
    (inr "box") (inl "user: unknown userid 1000").

End agent.

(** ** The userland stack host, package [netstack] *)

Module netstack.

(** *** gVisor's protocol numbers *)

Definition tcp_ProtocolNumber : Z := 6.
Definition udp_ProtocolNumber : Z := 17.
Definition icmp_ProtocolNumber4 : Z := 1.
Definition icmp_ProtocolNumber6 : Z := 58.
Definition ipv4_ProtocolNumber : Z := 2048.
Definition ipv6_ProtocolNumber : Z := 34525.

(** *** Tun-connections, lines 20-77 *)

Record TransportEndpointID := {
  LocalPort : Z;
  LocalAddress : string;
  RemotePort : Z;
  RemoteAddress : string
}.

(** A [*tcp.ForwarderRequest] or [*udp.ForwarderRequest]: the request
    object's address, and what its [ID()] returns. *)
Record ForwarderRequest := {
  request_ptr : Z;
  request_ID : TransportEndpointID
}.

(** A [*stack.PacketBuffer], by address. *)
Definition PacketBuffer := Z.

Record TCPConn := {
  tcp_EndpointID : TransportEndpointID;
  tcp_Request : ForwarderRequest
}.

Record UDPConn := {
  udp_EndpointID : TransportEndpointID;
  udp_Request : ForwarderRequest
}.

Record ICMPConn := { icmp_Request : PacketBuffer }.

(** [TunConn.Handler] is an [interface{}]. *)
Inductive HandlerT :=
| HTCPConn (c : TCPConn)
| HUDPConn (c : UDPConn)
| HICMPConn (c : ICMPConn)
| HNil.

Record TunConn := {
  Protocol : Z;
  Handler : HandlerT
}.

(** What the package does to the stack's objects and to the log. *)
Inductive Event :=
| EvComplete (request : ForwarderRequest) (sendReset : bool)
| EvDecRef (pkt : PacketBuffer)
| EvLock
| EvUnlock
| EvLogError (msg : string).

(** A call returns, or a type assertion in it panics, or a fatal log
    ends the process. *)
Inductive Result (A : Type) :=
| Ok (a : A)
| Panic (msg : string)
| Fatal (msg : string).
Arguments Ok {A} a.
Arguments Panic {A} msg.
Arguments Fatal {A} msg.

Definition IsTCP (t : TunConn) : bool := Protocol t =? tcp_ProtocolNumber.

Definition GetTCP (t : TunConn) : Result TCPConn :=
  match Handler t with
  | HTCPConn c => Ok c
  | _ => Panic "interface conversion"
  end.

Definition IsUDP (t : TunConn) : bool := Protocol t =? udp_ProtocolNumber.

Definition GetUDP (t : TunConn) : Result UDPConn :=
  match Handler t with
  | HUDPConn c => Ok c
  | _ => Panic "interface conversion"
  end.

Definition IsICMP (t : TunConn) : bool := Protocol t =? icmp_ProtocolNumber4.

Definition GetICMP (t : TunConn) : Result ICMPConn :=
  match Handler t with
  | HICMPConn c => Ok c
  | _ => Panic "interface conversion"
  end.

(** [Terminate], lines 55-60: the events of the call. *)
Definition Terminate (t : TunConn) (reset : bool) : Result (list Event) :=
  if IsTCP t then
    match GetTCP t with
    | Ok c => Ok [EvComplete (tcp_Request c) reset]
    | Panic msg => Panic msg
    | Fatal msg => Fatal msg
    end
  else Ok [].

(** The lifecycle summary's reading of [Terminate], for comparison with
    the code: TCP reset or finish, UDP drop (nothing is kept of the
    datagram), ICMP buffer release. *)
Definition Terminate_lifecycle (t : TunConn) (reset : bool) : list Event :=
  match Handler t with
  | HTCPConn c => [EvComplete (tcp_Request c) reset]
  | HUDPConn _ => []
  | HICMPConn c => [EvDecRef (icmp_Request c)]
  | HNil => []
  end.

(** *** The connection pool *)

(** [ConnPool] is declared in a file of the package that is not among the
    sources; the stack host calls its [Closed] and [Add]. *)
Class ConnPoolOps (P : Type) := {
  Closed : P → bool;
  Add : P → TunConn → P * option string
}.

(** Modelled from the spec: the connection pool of section 4.3, a closed
    flag and a queue; [Add] returns ClosedPool iff the flag is set, else
    enqueues and returns success. *)
Record SpecPool := {
  closed : bool;
  queue : list TunConn
}.

#[export] Instance SpecPool_ops : ConnPoolOps SpecPool := {
  Closed p := closed p;
  Add p tc :=
    if closed p then (p, Some "closed pool")
    else ({| closed := false; queue := queue p ++ [tc] |}, None)
}.

(** *** The gVisor stack, as far as [new] configures it *)

Definition LinkEndpoint := Z.

Record Subnet := {
  subnet_address : list Z;
  subnet_mask : list Z
}.

(** [header.IPv4EmptySubnet] and [header.IPv6EmptySubnet]: 0.0.0.0/0 and
    ::/0. *)
Definition IPv4EmptySubnet : Subnet :=
  {| subnet_address := replicate 4 0; subnet_mask := replicate 4 0 |}.
Definition IPv6EmptySubnet : Subnet :=
  {| subnet_address := replicate 16 0; subnet_mask := replicate 16 0 |}.

Record Route := {
  Destination : Subnet;
  NIC : Z
}.

Record NICState := {
  nic_endpoint : LinkEndpoint;
  Promiscuous : bool;
  Spoofing : bool;
  nic_forwarding : gmap Z bool
}.

(** A registered transport handler: which forwarder's [HandlePacket]. *)
Inductive TransportHandler :=
| TCPForwarder (rcvWnd maxInFlight : Z)
| UDPForwarder.

Record Options := {
  opt_NetworkProtocols : list Z;
  opt_TransportProtocols : list Z;
  opt_HandleLocal : bool
}.

Record Stack := {
  NetworkProtocols : list Z;
  TransportProtocols : list Z;
  HandleLocal : bool;
  icmpLimit : Z;
  icmpBurst : Z;
  transportHandlers : gmap Z TransportHandler;
  nics : gmap Z NICState;
  routeTable : list Route;
  defaultForwarding : gmap Z bool;
  TCPSACKEnabled : bool;
  TCPAlwaysUseSynCookies : bool
}.

(** What a new stack starts from is the library's business. *)
Record Defaults := {
  default_icmpLimit : Z;
  default_icmpBurst : Z;
  default_TCPSACKEnabled : bool;
  default_TCPAlwaysUseSynCookies : bool
}.

Definition stack_New (d : Defaults) (o : Options) : Stack :=
  {| NetworkProtocols := opt_NetworkProtocols o;
     TransportProtocols := opt_TransportProtocols o;
     HandleLocal := opt_HandleLocal o;
     icmpLimit := default_icmpLimit d;
     icmpBurst := default_icmpBurst d;
     transportHandlers := ∅;
     nics := ∅;
     routeTable := [];
     defaultForwarding := ∅;
     TCPSACKEnabled := default_TCPSACKEnabled d;
     TCPAlwaysUseSynCookies := default_TCPAlwaysUseSynCookies d |}.

Definition SetICMPLimit (v : Z) (ns : Stack) : Stack :=
  {| NetworkProtocols := NetworkProtocols ns; TransportProtocols := TransportProtocols ns;
     HandleLocal := HandleLocal ns; icmpLimit := v; icmpBurst := icmpBurst ns;
     transportHandlers := transportHandlers ns; nics := nics ns;
     routeTable := routeTable ns; defaultForwarding := defaultForwarding ns;
     TCPSACKEnabled := TCPSACKEnabled ns;
     TCPAlwaysUseSynCookies := TCPAlwaysUseSynCookies ns |}.

Definition SetICMPBurst (v : Z) (ns : Stack) : Stack :=
  {| NetworkProtocols := NetworkProtocols ns; TransportProtocols := TransportProtocols ns;
     HandleLocal := HandleLocal ns; icmpLimit := icmpLimit ns; icmpBurst := v;
     transportHandlers := transportHandlers ns; nics := nics ns;
     routeTable := routeTable ns; defaultForwarding := defaultForwarding ns;
     TCPSACKEnabled := TCPSACKEnabled ns;
     TCPAlwaysUseSynCookies := TCPAlwaysUseSynCookies ns |}.

Definition with_transportHandlers (h : gmap Z TransportHandler) (ns : Stack) : Stack :=
  {| NetworkProtocols := NetworkProtocols ns; TransportProtocols := TransportProtocols ns;
     HandleLocal := HandleLocal ns; icmpLimit := icmpLimit ns; icmpBurst := icmpBurst ns;
     transportHandlers := h; nics := nics ns;
     routeTable := routeTable ns; defaultForwarding := defaultForwarding ns;
     TCPSACKEnabled := TCPSACKEnabled ns;
     TCPAlwaysUseSynCookies := TCPAlwaysUseSynCookies ns |}.

Definition with_nics (n : gmap Z NICState) (ns : Stack) : Stack :=
  {| NetworkProtocols := NetworkProtocols ns; TransportProtocols := TransportProtocols ns;
     HandleLocal := HandleLocal ns; icmpLimit := icmpLimit ns; icmpBurst := icmpBurst ns;
     transportHandlers := transportHandlers ns; nics := n;
     routeTable := routeTable ns; defaultForwarding := defaultForwarding ns;
     TCPSACKEnabled := TCPSACKEnabled ns;
     TCPAlwaysUseSynCookies := TCPAlwaysUseSynCookies ns |}.

(** The handler is registered for a transport protocol the stack has. *)
Definition SetTransportProtocolHandler (p : Z) (h : TransportHandler) (ns : Stack) : Stack :=
  if bool_decide (p ∈ TransportProtocols ns)
  then with_transportHandlers (<[p := h]> (transportHandlers ns)) ns
  else ns.

(** A new NIC takes the stack's default forwarding; a second NIC of the
    same id is an error. *)
Definition CreateNIC (id : Z) (ep : LinkEndpoint) (ns : Stack) : string + Stack :=
  match nics ns !! id with
  | Some _ => inl "duplicate nic id"
  | None =>
      inr (with_nics
             (<[id := {| nic_endpoint := ep; Promiscuous := false; Spoofing := false;
                         nic_forwarding := defaultForwarding ns |}]> (nics ns))
             ns)
  end.

Definition SetRouteTable (table : list Route) (ns : Stack) : Stack :=
  {| NetworkProtocols := NetworkProtocols ns; TransportProtocols := TransportProtocols ns;
     HandleLocal := HandleLocal ns; icmpLimit := icmpLimit ns; icmpBurst := icmpBurst ns;
     transportHandlers := transportHandlers ns; nics := nics ns;
     routeTable := table; defaultForwarding := defaultForwarding ns;
     TCPSACKEnabled := TCPSACKEnabled ns;
     TCPAlwaysUseSynCookies := TCPAlwaysUseSynCookies ns |}.

Definition nic_setForwarding (p : Z) (enable : bool) (n : NICState) : NICState :=
  {| nic_endpoint := nic_endpoint n; Promiscuous := Promiscuous n; Spoofing := Spoofing n;
     nic_forwarding := <[p := enable]> (nic_forwarding n) |}.

(** An unknown network protocol is an error, which [new] does not read. *)
Definition SetForwardingDefaultAndAllNICs (p : Z) (enable : bool) (ns : Stack) : Stack :=
  if bool_decide (p ∈ NetworkProtocols ns)
  then
    {| NetworkProtocols := NetworkProtocols ns; TransportProtocols := TransportProtocols ns;
       HandleLocal := HandleLocal ns; icmpLimit := icmpLimit ns; icmpBurst := icmpBurst ns;
       transportHandlers := transportHandlers ns;
       nics := nic_setForwarding p enable <$> nics ns;
       routeTable := routeTable ns;
       defaultForwarding := <[p := enable]> (defaultForwarding ns);
       TCPSACKEnabled := TCPSACKEnabled ns;
       TCPAlwaysUseSynCookies := TCPAlwaysUseSynCookies ns |}
  else ns.

(** The two TCP options [new] sets. *)
Inductive TransportOption :=
| OptTCPSACKEnabled (v : bool)
| OptTCPAlwaysUseSynCookies (v : bool).

(** An unknown transport protocol is an error, which [new] does not read;
    both options are TCP's. *)
Definition SetTransportProtocolOption (p : Z) (o : TransportOption) (ns : Stack) : Stack :=
  if bool_decide (p ∈ TransportProtocols ns) && (p =? tcp_ProtocolNumber)
  then
    match o with
    | OptTCPSACKEnabled v =>
        {| NetworkProtocols := NetworkProtocols ns; TransportProtocols := TransportProtocols ns;
           HandleLocal := HandleLocal ns; icmpLimit := icmpLimit ns; icmpBurst := icmpBurst ns;
           transportHandlers := transportHandlers ns; nics := nics ns;
           routeTable := routeTable ns; defaultForwarding := defaultForwarding ns;
           TCPSACKEnabled := v;
           TCPAlwaysUseSynCookies := TCPAlwaysUseSynCookies ns |}
    | OptTCPAlwaysUseSynCookies v =>
        {| NetworkProtocols := NetworkProtocols ns; TransportProtocols := TransportProtocols ns;
           HandleLocal := HandleLocal ns; icmpLimit := icmpLimit ns; icmpBurst := icmpBurst ns;
           transportHandlers := transportHandlers ns; nics := nics ns;
           routeTable := routeTable ns; defaultForwarding := defaultForwarding ns;
           TCPSACKEnabled := TCPSACKEnabled ns;
           TCPAlwaysUseSynCookies := v |}
    end
  else ns.

(** An unknown NIC is an error, which [new] does not read. *)
Definition SetPromiscuousMode (id : Z) (enable : bool) (ns : Stack) : Stack :=
  match nics ns !! id with
  | Some n =>
      with_nics (<[id := {| nic_endpoint := nic_endpoint n; Promiscuous := enable;
                            Spoofing := Spoofing n;
                            nic_forwarding := nic_forwarding n |}]> (nics ns)) ns
  | None => ns
  end.

Definition SetSpoofing (id : Z) (enable : bool) (ns : Stack) : Stack :=
  match nics ns !! id with
  | Some n =>
      with_nics (<[id := {| nic_endpoint := nic_endpoint n; Promiscuous := Promiscuous n;
                            Spoofing := enable;
                            nic_forwarding := nic_forwarding n |}]> (nics ns)) ns
  | None => ns
  end.

(** *** [NetStack], lines 79-103

    [pool] is a pointer that may be [nil]; [stack] is [nil] until [new]
    has run.  The embedded mutex shows as the lock and unlock events. *)

Record NetStack (P : Type) := {
  pool : option P;
  stack : option Stack
}.
Arguments pool {P} _.
Arguments stack {P} _.

(** What [new] asks of the operating system and of the rest of the
    package. *)
Record HostEnv := {
  (** [rawfile.GetMTU(tunName)] *)
  rawfile_GetMTU : string → string + Z;
  (** [tun.Open(tunName)]: the file descriptor *)
  tun_Open : string → string + Z;
  (** [fdbased.New(&fdbased.Options{FDs: fds, MTU: mtu})] *)
  fdbased_New : list Z → Z → string + LinkEndpoint;
  (** Modelled from the spec: [icmpResponder] (section 4.4, not among the
      sources) installs a raw packet handler for ICMPv4; of the stack's
      settings it changes none, so here it is its error, if any. *)
  icmpResponder : Stack → option string;
  library_defaults : Defaults
}.

Section host.
Context {P : Type} `{ConnPoolOps P}.

Definition GetStack (s : NetStack P) : option Stack := stack s.

(** [SetConnPool], lines 99-103. *)
Definition SetConnPool (s : NetStack P) (connPool : option P) : NetStack P * list Event :=
  ({| pool := connPool; stack := stack s |}, [EvLock; EvUnlock]).

(** What both forwarder callbacks do with the tun-connection they built,
    under the lock: lines 149-160 and 171-183. *)
Definition forward (s : NetStack P) (tc : TunConn) : NetStack P * list Event :=
  match pool s with
  | None => (s, [EvLock; EvUnlock])
  | Some p =>
      if Closed p then (s, [EvLock; EvUnlock])
      else
        match Add p tc with
        | (p1, Some err) =>
            ({| pool := Some p1; stack := stack s |}, [EvLock; EvLogError err; EvUnlock])
        | (p1, None) =>
            ({| pool := Some p1; stack := stack s |}, [EvLock; EvUnlock])
        end
  end.

(** The callback of [tcp.NewForwarder], lines 144-161. *)
Definition tcpForwarderCallback (s : NetStack P) (request : ForwarderRequest)
  : NetStack P * list Event :=
  let tcpConn := {| tcp_EndpointID := request_ID request; tcp_Request := request |} in
  forward s {| Protocol := tcp_ProtocolNumber; Handler := HTCPConn tcpConn |}.

(** The callback of [udp.NewForwarder], lines 164-184. *)
Definition udpForwarderCallback (s : NetStack P) (request : ForwarderRequest)
  : NetStack P * list Event :=
  let udpConn := {| udp_EndpointID := request_ID request; udp_Request := request |} in
  forward s {| Protocol := udp_ProtocolNumber; Handler := HUDPConn udpConn |}.

(** [new], lines 106-230. *)
Definition new (env : HostEnv) (s : NetStack P) (tunName : string) : Result (NetStack P) :=
  match rawfile_GetMTU env tunName with
  | inl err => Fatal err
  | inr mtu =>
  match tun_Open env tunName with
  | inl err => Fatal err
  | inr fd =>
  match fdbased_New env [fd] mtu with
  | inl err => Fatal err
  | inr linkEP =>
      let ns := stack_New (library_defaults env)
        {| opt_NetworkProtocols := [ipv4_ProtocolNumber; ipv6_ProtocolNumber];
           opt_TransportProtocols :=
             [tcp_ProtocolNumber; udp_ProtocolNumber;
              icmp_ProtocolNumber4; icmp_ProtocolNumber6];
           opt_HandleLocal := false |} in
      let ns := SetICMPLimit 0 ns in
      let ns := SetICMPBurst 0 ns in
      let tcpHandler := TCPForwarder 0 4096 in
      let udpHandler := UDPForwarder in
      let ns := SetTransportProtocolHandler tcp_ProtocolNumber tcpHandler ns in
      let ns := SetTransportProtocolHandler udp_ProtocolNumber udpHandler ns in
      match CreateNIC 1 linkEP ns with
      | inl err => Panic err
      | inr ns =>
      match icmpResponder env ns with
      | Some err => Fatal err
      | None =>
          let ns := SetRouteTable
            [ {| Destination := IPv4EmptySubnet; NIC := 1 |};
              {| Destination := IPv6EmptySubnet; NIC := 1 |} ] ns in
          let ns := SetForwardingDefaultAndAllNICs ipv4_ProtocolNumber false ns in
          let ns := SetForwardingDefaultAndAllNICs ipv6_ProtocolNumber false ns in
          let nsacks := OptTCPSACKEnabled false in
          let ns := SetTransportProtocolOption tcp_ProtocolNumber nsacks ns in
          let synCookies := OptTCPAlwaysUseSynCookies false in
          let ns := SetTransportProtocolOption tcp_ProtocolNumber synCookies ns in
          let ns := SetPromiscuousMode 1 true ns in
          let ns := SetSpoofing 1 true ns in
          Ok {| pool := pool s; stack := Some ns |}
      end
      end
  end
  end
  end.

(** [NewStack], lines 87-91. *)
Definition NewStack (env : HostEnv) (tunName : string) (connPool : option P)
  : Result (NetStack P) :=
  new env {| pool := connPool; stack := None |} tunName.

End host.

(** *** A concrete host, for running [new] *)

Definition tunHost : HostEnv :=
  {| rawfile_GetMTU := λ _, inr 1500;
     tun_Open := λ _, inr 3;
     fdbased_New := λ _ _, inr 9;
     icmpResponder := λ _, None;
     library_defaults :=
       {| default_icmpLimit := 1000; default_icmpBurst := 50;
          default_TCPSACKEnabled := true; default_TCPAlwaysUseSynCookies := true |} |}.

End netstack.

(** ** Properties of the agent *)

Module agent_props.
Import agent.

(** *** Reading the claims *)

(** The network and the address a connect request names: transport and
    family give the network, address and port the host-port pair. *)
Definition requested_network (r : ConnectRequestPacket) : string :=
  match creq_Transport r, creq_Net r with
  | TransportTCP, Networkv4 => "tcp4"
  | TransportTCP, Networkv6 => "tcp6"
  | TransportUDP, Networkv4 => "udp4"
  | TransportUDP, Networkv6 => "udp6"
  end.

Definition requested_address (r : ConnectRequestPacket) : string :=
  creq_Address r +:+ ":" +:+ pretty (creq_Port r).

Definition request (t : MessageType) (p : PayloadT) : Envelope :=
  {| Type_ := t; Payload := p |}.

Definition connectResponse (p : ConnectResponsePacket) : Envelope :=
  {| Type_ := MessageConnectResponse; Payload := PConnectResponse p |}.

(** The host-responded predicate on a dial error: the error carries a
    syscall errno, and [neterror.HostResponded] holds of it. *)
Definition host_responded (env : Env) (err : DialError) : bool :=
  match de_errno err with
  | Some serr => HostResponded env serr
  | None => false
  end.

(** *** Running a handler *)

Ltac run_handler H :=
  unfold request in H;
  unfold handleConn, run, handleConn_body; rewrite H; cbn [Payload Type_];
  cbv [caseConnectRequest caseHostPingRequest caseInfoRequest caseListenerCloseRequest
       caseListenerSockRequest bad_assertion logrus_Debug logrus_Error logrus_Fatal
       Listener_Close StartRelay encode panic halt emit ret bind gets modify].

(** An event of one shape is not in a list of events of other shapes. *)
Ltac not_in_events :=
  let Hin := fresh "Hin" in
  intros; intros Hin;
  repeat (apply elem_of_cons in Hin; destruct Hin as [Hin | Hin]; [discriminate Hin|]);
  apply elem_of_nil in Hin; exact Hin.

(** *** Invariants of the handlers

    [keeps I m]: if [I] holds of the globals and of the events so far, it
    holds again after [m] has run. *)

Definition keeps {A} (I : Globals → list Event → Prop) (m : M A) : Prop :=
  ∀ g t, I g t → I (m g).1.2 (t ++ (m g).2).

(** The events no invariant below depends on: everything but a connect
    response and a bind response that announces a socket. *)
Definition quiet (e : Event) : Prop :=
  match e with
  | EvEncode _ envelope =>
      match Payload envelope with
      | PConnectResponse _ => False
      | PListenerBindReponse b => bind_Err b = true
      | _ => True
      end
  | _ => True
  end.

(** The assignment of a listener request: the listener is registered
    under [listenerID], and [listenerID] is incremented. *)
Definition register (listener : Listener) (g : Globals) : Globals :=
  {| listenerConntrack := listenerConntrack g;
     listenerMap := <[listenerID g := listener]> (listenerMap g);
     connTrackID := connTrackID g;
     listenerID := incr32 (listenerID g) |}.

(** A connect response whose flags are consistent. *)
Definition sound_reply (p : ConnectResponsePacket) : Prop :=
  Established p = true → Reset p = false.

Section keeps.
Context (I : Globals → list Event → Prop).

Lemma keeps_ret {A} (a : A) : keeps I (ret a).
Proof. intros g t HI. cbn. rewrite app_nil_r. exact HI. Qed.

Lemma keeps_halt {A} (o : Outcome) : keeps I (@halt A o).
Proof. intros g t HI. cbn. rewrite app_nil_r. exact HI. Qed.

Lemma keeps_gets {A} (f : Globals → A) : keeps I (gets f).
Proof. intros g t HI. cbn. rewrite app_nil_r. exact HI. Qed.

Lemma keeps_bind {A B} (m : M A) (f : A → M B) :
  keeps I m → (∀ a, keeps I (f a)) → keeps I (bind m f).
Proof.
  intros Hm Hf g t HI. specialize (Hm g t HI). unfold bind.
  destruct (m g) as [[[a | o] g1] t1]; cbn in *; [|exact Hm].
  specialize (Hf a g1 (t ++ t1) Hm).
  destruct (f a g1) as [[r g2] t2]; cbn in *.
  rewrite app_assoc. exact Hf.
Qed.

Lemma keeps_run (m : M unit) (g : Globals) (t : list Event) :
  keeps I m → I g t → I (run m g).1.2 (t ++ (run m g).2).
Proof.
  intros Hm HI. specialize (Hm g t HI). unfold run.
  destruct (m g) as [[[[] | o] g1] t1]; exact Hm.
Qed.

Section handlers.
Context (env : Env) (conn : Conn).
Hypothesis keeps_quiet : ∀ e, quiet e → keeps I (emit e).
Hypothesis keeps_reply : ∀ p,
  sound_reply p → keeps I (emit (EvEncode conn (connectResponse p))).
Hypothesis keeps_accept : ∀ c, keeps I (acceptOne env conn c).
Hypothesis keeps_register : ∀ l, keeps I (modify (register l)).

Ltac quiet_event := apply keeps_quiet; first [exact Logic.I | reflexivity].

Ltac walk :=
  repeat first
    [ apply keeps_ret
    | apply keeps_halt
    | apply keeps_gets
    | quiet_event
    | apply keeps_bind; [| intros]
    | match goal with
      | |- keeps _ (match ?x with _ => _ end) => destruct x
      | |- keeps _ (if ?x then _ else _) => destruct x
      end ].

Lemma keeps_Fatal {A} (msg : string) : keeps I (@logrus_Fatal A msg).
Proof. unfold logrus_Fatal. walk. Qed.

Lemma keeps_encode_or_log (e : Envelope) :
  quiet (EvEncode conn e) → keeps I (encode_or_log env conn e).
Proof.
  intros Hq. unfold encode_or_log, encode, logrus_Error.
  apply keeps_bind; [apply keeps_bind; [apply keeps_quiet, Hq | intros; apply keeps_ret]|].
  intros [err|]; walk.
Qed.

Lemma keeps_acceptLoop (conns : list Conn) : keeps I (acceptLoop env conn conns).
Proof.
  induction conns as [|c conns IH]; cbn [acceptLoop].
  - apply keeps_ret.
  - apply keeps_bind; [apply keeps_accept | intros _; exact IH].
Qed.

Lemma keeps_caseConnectRequest (e : PayloadT) : keeps I (caseConnectRequest env conn e).
Proof.
  unfold caseConnectRequest, bad_assertion, panic, logrus_Debug.
  destruct e; try apply keeps_halt.
  cbv zeta. apply keeps_bind; [quiet_event | intros _].
  apply keeps_bind; [quiet_event | intros _].
  destruct (DialContext env _ _ _) as [err | targetConn].
  - apply keeps_bind.
    + unfold encode. apply keeps_bind; [| intros; apply keeps_ret].
      apply keeps_reply. intros Hest. discriminate Hest.
    + intros [msg|]; [apply keeps_Fatal | apply keeps_ret].
  - apply keeps_bind.
    + unfold encode. apply keeps_bind; [| intros; apply keeps_ret].
      apply keeps_reply. intros _. reflexivity.
    + intros [msg|]; [apply keeps_Fatal |].
      cbn. quiet_event.
Qed.

Lemma keeps_caseHostPingRequest (e : PayloadT) : keeps I (caseHostPingRequest env conn e).
Proof.
  unfold caseHostPingRequest, bad_assertion, panic, encode.
  destruct e; try apply keeps_halt.
  cbv zeta. walk; apply keeps_Fatal.
Qed.

Lemma keeps_caseInfoRequest : keeps I (caseInfoRequest env conn).
Proof.
  unfold caseInfoRequest, panic, encode, logrus_Error.
  cbv zeta. walk; apply keeps_Fatal.
Qed.

Lemma keeps_caseListenerCloseRequest (e : PayloadT) :
  keeps I (caseListenerCloseRequest env conn e).
Proof.
  unfold caseListenerCloseRequest, bad_assertion, panic, encode, logrus_Error,
    Listener_Close.
  destruct e; try apply keeps_halt.
  cbv zeta. walk.
Qed.

Lemma keeps_caseListenerRequest (e : PayloadT) : keeps I (caseListenerRequest env conn e).
Proof.
  unfold caseListenerRequest, bad_assertion, panic, logrus_Error, NewListener,
    Listener_Close.
  destruct e; try apply keeps_halt.
  apply keeps_bind; [walk | intros [err | listener]].
  - apply keeps_encode_or_log. exact Logic.I.
  - apply keeps_bind; [apply keeps_gets | intros id]. cbv zeta.
    apply keeps_bind; [apply (keeps_register listener) | intros _].
    apply keeps_bind; [apply keeps_encode_or_log; exact Logic.I | intros _].
    apply keeps_bind; [apply keeps_acceptLoop | intros _].
    destruct (accept_error env) as [err|]; [| apply keeps_halt].
    apply keeps_bind; [quiet_event | intros _].
    apply keeps_bind; [apply keeps_encode_or_log; reflexivity | intros _].
    walk.
Qed.

Lemma keeps_caseListenerSockRequest (e : PayloadT) :
  keeps I (caseListenerSockRequest env conn e).
Proof.
  unfold caseListenerSockRequest, bad_assertion, panic, encode, StartRelay.
  destruct e; try apply keeps_halt.
  cbv zeta. walk; apply keeps_Fatal.
Qed.

(** The footprint of [handleConn]: an invariant that survives the quiet
    events, a consistent connect response, an accepted socket and the
    registration of a listener survives every session. *)
Lemma keeps_handleConn_body : keeps I (handleConn_body env conn).
Proof.
  unfold handleConn_body, panic.
  destruct (Decode env conn) as [err | envelope]; [apply keeps_halt|].
  cbv zeta.
  destruct (Type_ envelope);
    first [ apply keeps_ret | apply keeps_halt
          | apply keeps_caseConnectRequest | apply keeps_caseHostPingRequest
          | apply keeps_caseInfoRequest | apply keeps_caseListenerCloseRequest
          | apply keeps_caseListenerRequest | apply keeps_caseListenerSockRequest ].
Qed.

End handlers.
End keeps.

(** C1.  A connect request is served by one dial of the requested network
    and address with a deadline of five seconds, followed by exactly one
    ConnectResponse: after a failed dial it is not established, and reset
    says whether the error is a syscall errno that satisfies the
    host-responded predicate (false for any other failure, a timeout
    included); after a successful dial it is established, and once the reply
    is written the dialled socket is relayed with the session stream. *)
Theorem connect_request_reply (env : Env) (conn : Conn) (g : Globals)
    (req : ConnectRequestPacket) :
  Decode env conn = inr (request MessageConnectRequest (PConnectRequest req)) →
  ∃ reply o rest,
    handleConn env conn g =
      (o, g,
       [EvLog DebugLevel ("Got connect request to " +:+ requested_address req);
        EvDial (requested_network req) (requested_address req) (5 * Second);
        EvEncode conn (connectResponse reply)] ++ rest)
    ∧ (∀ stream e, EvEncode stream e ∉ rest)
    ∧ match DialContext env (requested_network req) (requested_address req) (5 * Second) with
      | inl err =>
          reply = {| Established := false; Reset := host_responded env err |}
          ∧ ∀ a b, EvRelay a b ∉ rest
      | inr targetConn =>
          reply = {| Established := true; Reset := false |}
          ∧ (Encode env conn (connectResponse reply) = None →
             o = Returned ∧ rest = [EvRelay targetConn conn])
      end.
Proof.
  intros Hdec. run_handler Hdec.
  destruct req as [net transport address port].
  unfold requested_address, requested_network, Sprintf_host_port, connectResponse.
  cbn [creq_Net creq_Transport creq_Address creq_Port].
  destruct net, transport; cbn [String.append];
    (destruct (DialContext env _ _ _) as [err | targetConn];
     [ exists {| Established := false; Reset := host_responded env err |};
       unfold host_responded;
       destruct (de_errno err) as [serr|]; [destruct (HostResponded env serr)|]
     | exists {| Established := true; Reset := false |} ];
     cbn [Established Reset];
     (destruct (Encode env conn _) as [e|];
      [ exists (Exited 1), [EvLog FatalLevel e]
      | first [ exists Returned, [EvRelay targetConn conn] | exists Returned, [] ] ];
      cbn; (split; [reflexivity|]); (split; [not_in_events|]);
      (split; [reflexivity|]);
      first [ not_in_events | intros; discriminate | intros; split; reflexivity ])).
Qed.

(** *** The flags of a connect response *)

Definition reply_ok (e : Event) : Prop :=
  match e with
  | EvEncode _ envelope =>
      match Payload envelope with
      | PConnectResponse p => sound_reply p
      | _ => True
      end
  | _ => True
  end.

Lemma quiet_reply_ok (e : Event) : quiet e → reply_ok e.
Proof.
  destruct e as [| | stream envelope | | |]; cbn; try (intros; exact I).
  destruct (Payload envelope); cbn; intros Hq; first [exact I | destruct Hq].
Qed.

Lemma acceptOne_run (env : Env) (conn c : Conn) (g : Globals) :
  acceptOne env conn c g =
    (Val tt,
     {| listenerConntrack := <[incr32 (connTrackID g) := c]> (listenerConntrack g);
        listenerMap := listenerMap g;
        connTrackID := incr32 (connTrackID g);
        listenerID := listenerID g |},
     EvEncode conn
       {| Type_ := MessageListenerBindResponse;
          Payload := PListenerBindReponse
            {| bind_SockID := incr32 (connTrackID g); bind_Err := false;
               bind_ErrString := "" |} |}
     :: match Encode env conn
                {| Type_ := MessageListenerBindResponse;
                   Payload := PListenerBindReponse
                     {| bind_SockID := incr32 (connTrackID g); bind_Err := false;
                        bind_ErrString := "" |} |} with
        | Some err => [EvLog ErrorLevel err]
        | None => []
        end).
Proof.
  cbv [acceptOne ListenAndServe_turn encode_or_log encode logrus_Error
       bind modify gets emit ret].
  cbn [connTrackID listenerConntrack listenerMap listenerID].
  destruct (Encode env conn _); reflexivity.
Qed.

Lemma replies_ok (env : Env) (conn : Conn) (g : Globals) :
  Forall reply_ok (handleConn env conn g).2.
Proof.
  pose (Inv := λ (_ : Globals) (t : list Event), Forall reply_ok t).
  assert (Hkeeps : keeps Inv (handleConn_body env conn)).
  { apply keeps_handleConn_body; unfold Inv.
    - intros e Hq g0 t Ht. cbn. apply Forall_app. split; [exact Ht|].
      constructor; [apply quiet_reply_ok, Hq | constructor].
    - intros p Hp g0 t Ht. cbn. apply Forall_app. split; [exact Ht|].
      constructor; [exact Hp | constructor].
    - intros c g0 t Ht. rewrite acceptOne_run. cbn [fst snd].
      apply Forall_app. split; [exact Ht|].
      constructor; [exact I|]. destruct (Encode env conn _); repeat constructor.
    - intros l g0 t Ht. cbn. rewrite app_nil_r. exact Ht. }
  apply (keeps_run Inv _ g [] Hkeeps). constructor.
Qed.

(** C10.  Whatever the session, a connect response that the handler
    writes with established set has reset clear. *)
Theorem connect_response_flags (env : Env) (conn : Conn) (g : Globals)
    (stream : Conn) (p : ConnectResponsePacket) :
  EvEncode stream (connectResponse p) ∈ (handleConn env conn g).2 →
  Established p = true → Reset p = false.
Proof.
  intros Hin. pose proof (replies_ok env conn g) as Hall.
  rewrite Forall_forall in Hall. exact (Hall _ Hin).
Qed.

(** *** A malformed envelope *)

(** C2, as amended.  A session whose envelope does not decode panics with
    the decoder's error before it has written anything or touched the
    registry; the panic is not recovered, so it ends the agent process and
    the sessions that follow are not served. *)
Theorem decode_failure_panics (env : Env) (conn : Conn) (g : Globals) (err : string)
    (sessions : list (Env * Conn)) :
  Decode env conn = inl err →
  handleConn env conn g = (Panicked err, g, [])
  ∧ terminates_process (Panicked err) = true
  ∧ serve ((env, conn) :: sessions) g = (Ended (Panicked err), g, []).
Proof.
  intros Hdec.
  assert (Hrun : handleConn env conn g = (Panicked err, g, [])).
  { unfold handleConn, run, handleConn_body. rewrite Hdec. reflexivity. }
  split; [exact Hrun|]. split; [reflexivity|].
  cbn [serve]. rewrite Hrun. reflexivity.
Qed.

(** *** The listener registry *)

Definition closeResponse (p : ListenerCloseResponsePacket) : Envelope :=
  {| Type_ := MessageListenerCloseResponse; Payload := PListenerCloseResponse p |}.

Definition sockResponse (p : ListenerSockResponsePacket) : Envelope :=
  {| Type_ := MessageListenerSockResponse; Payload := PListenerSockResponse p |}.

(** C6, as amended.  A listener close request closes the listener it
    names, if the registry has it, and leaves the registry as it was: the
    entry is not removed.  The reply is one ListenerCloseResponse whose err
    is set iff the id is unknown or the close failed, with the error's text
    in err_string in that case. *)
Theorem listener_close_reply (env : Env) (conn : Conn) (g : Globals)
    (req : ListenerCloseRequestPacket) :
  Decode env conn = inr (request MessageListenerCloseRequest (PListenerCloseRequest req)) →
  ∃ reply closes logs,
    handleConn env conn g =
      (Returned, g, closes ++ [EvEncode conn (closeResponse reply)] ++ logs)
    ∧ (∀ stream e, EvEncode stream e ∉ closes ++ logs)
    ∧ match listenerMap g !! clreq_ListenerID req with
      | Some lis =>
          closes = [EvListenerClose lis]
          ∧ clresp_Err reply = is_err (Close env lis)
          ∧ clresp_ErrString reply = default "" (Close env lis)
      | None =>
          closes = []
          ∧ clresp_Err reply = true
          ∧ clresp_ErrString reply = "invalid listener id"
      end
    ∧ (clresp_Err reply = true ↔
       listenerMap g !! clreq_ListenerID req = None
       ∨ ∃ lis msg, listenerMap g !! clreq_ListenerID req = Some lis
                    ∧ Close env lis = Some msg).
Proof.
  intros Hdec. run_handler Hdec. unfold closeResponse.
  destruct (listenerMap g !! clreq_ListenerID req) as [lis|] eqn:Hlis.
  - destruct (Close env lis) as [msg|] eqn:Hclose; cbn;
      (destruct (Encode env conn _) as [e|]; cbn;
       eexists _, [EvListenerClose lis], _;
       (split; [reflexivity|]); (split; [not_in_events|]);
       (split; [repeat split|]);
       (split; [intros Herr; cbn in Herr; first [discriminate Herr | right; eauto]
               | intros [Hnone | (l & m & Hl & Hm)];
                 first [reflexivity | congruence]])).
  - cbn.
    destruct (Encode env conn _) as [e|]; cbn; eexists _, [], _;
      (split; [reflexivity|]); (split; [not_in_events|]);
      (split; [repeat split|]);
      (split; [intros _; left; reflexivity | intros _; reflexivity]).
Qed.

(** The lookups of the sock request and of the close request do not write:
    the package-level variables are as they were. *)
Lemma lookup_requests_keep_globals (env : Env) (conn : Conn) (g : Globals) (p : PayloadT) :
  (caseListenerSockRequest env conn p g).1.2 = g
  ∧ (caseListenerCloseRequest env conn p g).1.2 = g.
Proof.
  cbv [caseListenerSockRequest caseListenerCloseRequest bad_assertion logrus_Error
       logrus_Fatal Listener_Close StartRelay encode panic halt emit ret bind gets modify].
  destruct p; cbn; try (split; reflexivity).
  - split; [|reflexivity].
    destruct (listenerConntrack g !! sreq_SockID p) eqn:Hfound; cbn;
      destruct (Encode env conn _); cbn; rewrite ?Hfound; reflexivity.
  - split; [reflexivity|].
    destruct (listenerMap g !! clreq_ListenerID p) as [lis|]; cbn;
      [destruct (Close env lis)|]; cbn; destruct (Encode env conn _); reflexivity.
Qed.

Definition is_lookup_request (d : string + Envelope) : bool :=
  match d with
  | inr {| Type_ := MessageListenerSockRequest |}
  | inr {| Type_ := MessageListenerCloseRequest |} => true
  | _ => false
  end.

(** No session takes a socket out of the conntrack table. *)
Lemma conntrack_keys_stay (env : Env) (conn : Conn) (g : Globals) (k : Z) :
  is_Some (listenerConntrack g !! k) →
  is_Some (listenerConntrack (handleConn env conn g).1.2 !! k).
Proof.
  intros Hk.
  pose (Inv := λ (g1 : Globals) (_ : list Event), is_Some (listenerConntrack g1 !! k)).
  assert (Hkeeps : keeps Inv (handleConn_body env conn)).
  { apply keeps_handleConn_body; unfold Inv.
    - intros e _ g0 t Hg. exact Hg.
    - intros p _ g0 t Hg. exact Hg.
    - intros c g0 t Hg. rewrite acceptOne_run. cbn [fst snd listenerConntrack].
      destruct (decide (incr32 (connTrackID g0) = k)) as [-> | Hne].
      + rewrite lookup_insert_eq. eauto.
      + rewrite lookup_insert_ne by exact Hne. exact Hg.
    - intros l g0 t Hg. exact Hg. }
  exact (keeps_run Inv _ g [] Hkeeps Hk).
Qed.

(** C4, as amended.  A sock request leaves its entry in the conntrack
    table, which it only reads, and so does a listener close request: both
    return with the package-level variables as they found them.  No session
    of any kind takes an entry out of the table, so the sockets a listener
    accepted stay parked under their ids when the listener is closed. *)
Theorem conntrack_entries_stay (env : Env) (conn : Conn) (g : Globals) :
  (∀ k, is_Some (listenerConntrack g !! k) →
        is_Some (listenerConntrack (handleConn env conn g).1.2 !! k))
  ∧ (is_lookup_request (Decode env conn) = true → (handleConn env conn g).1.2 = g).
Proof.
  split; [intros k; apply conntrack_keys_stay|].
  unfold is_lookup_request, handleConn, run, handleConn_body.
  destruct (Decode env conn) as [err | [ty p]]; [discriminate|].
  cbn [Type_ Payload].
  destruct ty; try discriminate; intros _.
  - pose proof (lookup_requests_keep_globals env conn g p) as [Hsock _].
    destruct (caseListenerSockRequest env conn p g) as [[[[]|o] g1] t1]; exact Hsock.
  - pose proof (lookup_requests_keep_globals env conn g p) as [_ Hclose].
    destruct (caseListenerCloseRequest env conn p g) as [[[[]|o] g1] t1]; exact Hclose.
Qed.

(** *** Parked sockets *)

(** The states of an agent whose goroutines are scheduled one after the
    other, with the events so far: the sessions are served in turn from the
    start of [main], and a listener whose handler waits in its loop accepts
    one more socket.  The states the program passes through inside a turn of
    [ListenAndServe], between its send and its store, and the interleavings
    of two listeners' turns are not among them. *)
Inductive reachable : Globals → list Event → Prop :=
| reach_start : reachable initGlobals []
| reach_session env conn g t :
    reachable g t →
    terminates_process (handleConn env conn g).1.1 = false →
    reachable (handleConn env conn g).1.2 (t ++ (handleConn env conn g).2)
| reach_accept env conn c g t :
    reachable g t →
    reachable (acceptOne env conn c g).1.2 (t ++ (acceptOne env conn c g).2).

(** C7, as amended.  A sock request for an id that is not in the
    conntrack table is answered by one ListenerSockResponse with err set,
    and nothing is relayed; a sock request for an id that is in the table is
    answered by one ListenerSockResponse with err clear and, once the reply
    is written, the parked socket is relayed with the session.  So the reply
    has err clear iff the id is in the conntrack table when the handler looks
    it up, whatever has been streamed. *)
Theorem listener_sock_reply (env : Env) (conn : Conn) (g : Globals)
    (req : ListenerSockRequestPacket) :
  Decode env conn = inr (request MessageListenerSockRequest (PListenerSockRequest req)) →
  ∃ reply o rest,
    handleConn env conn g = (o, g, EvEncode conn (sockResponse reply) :: rest)
    ∧ (∀ stream e, EvEncode stream e ∉ rest)
    ∧ match listenerConntrack g !! sreq_SockID req with
      | None =>
          reply = {| sresp_Err := true; sresp_ErrString := "invalid or unexistant SockID" |}
          ∧ ∀ a b, EvRelay a b ∉ rest
      | Some netConn =>
          reply = {| sresp_Err := false; sresp_ErrString := "" |}
          ∧ (Encode env conn (sockResponse reply) = None →
             o = Returned ∧ rest = [EvRelay netConn conn])
      end
    ∧ (sresp_Err reply = false ↔ is_Some (listenerConntrack g !! sreq_SockID req)).
Proof.
  intros Hdec.
  run_handler Hdec. unfold sockResponse.
  destruct (listenerConntrack g !! sreq_SockID req) as [netConn|] eqn:Hfound; cbn.
  - exists {| sresp_Err := false; sresp_ErrString := "" |}.
    destruct (Encode env conn _) as [e|]; cbn; rewrite ?Hfound; cbn;
      [ exists (Exited 1), [EvLog FatalLevel e]
      | exists Returned, [EvRelay netConn conn] ];
      (split; [reflexivity|]); (split; [not_in_events|]);
      (split; [split; [reflexivity|]; first [intros; discriminate | intros; split; reflexivity]|]);
      (split; [intros _; eauto | reflexivity]).
  - exists {| sresp_Err := true; sresp_ErrString := "invalid or unexistant SockID" |}.
    destruct (Encode env conn _) as [e|]; cbn;
      [ exists (Exited 1), [EvLog FatalLevel e] | exists Returned, [] ];
      (split; [reflexivity|]); (split; [not_in_events|]);
      (split; [split; [reflexivity | not_in_events]|]);
      (split; [intros Hno; discriminate Hno
              | intros [x Hx]; discriminate Hx]).
Qed.

(** *** The name of an info reply *)

Definition infoReply (p : InfoReplyPacket) : Envelope :=
  {| Type_ := MessageInfoReply; Payload := PInfoReply p |}.

(** When host name, user and interfaces can all be read, the name is the
    user's name, an at sign and the host's name. *)
Lemma info_request_name (env : Env) (conn : Conn) (g : Globals)
    (host : string) (user : User) (netifaces : list Interface) :
  Decode env conn = inr (request MessageInfoRequest PInfoRequest) →
  Hostname env = inr host → Current env = inr user → net_Interfaces env = inr netifaces →
  ∃ o logs,
    handleConn env conn g =
      (o, g,
       EvEncode conn (infoReply {| Name := Username user +:+ "@" +:+ host;
                                   Interfaces := NewNetInterfaces env netifaces |})
       :: logs).
Proof.
  intros Hdec Hhost Huser Hifs. run_handler Hdec.
  rewrite Hhost, Huser, Hifs. cbn. unfold infoReply.
  destruct (Encode env conn _) as [e|]; cbn; eauto.
Qed.

(** When the host name cannot be read, the user part of the name is
    "Unknown", whoever the user is. *)
Lemma info_request_hostname_error (env : Env) (conn : Conn) (g : Globals)
    (err : string) (netifaces : list Interface) :
  Decode env conn = inr (request MessageInfoRequest PInfoRequest) →
  Hostname env = inl err → net_Interfaces env = inr netifaces →
  ∃ o logs,
    handleConn env conn g =
      (o, g,
       EvEncode conn (infoReply {| Name := "Unknown@UNKNOWN";
                                   Interfaces := NewNetInterfaces env netifaces |})
       :: logs).
Proof.
  intros Hdec Hhost Hifs. run_handler Hdec.
  rewrite Hhost, Hifs. cbn. unfold infoReply.
  destruct (Encode env conn _) as [e|]; cbn; eauto.
Qed.

(** When the host name can be read and the user cannot, the handler
    dereferences a nil user and panics before it has replied. *)
Lemma info_request_user_error (env : Env) (conn : Conn) (g : Globals)
    (host err : string) :
  Decode env conn = inr (request MessageInfoRequest PInfoRequest) →
  Hostname env = inr host → Current env = inl err →
  handleConn env conn g =
    (Panicked "invalid memory address or nil pointer dereference", g, []).
Proof.
  intros Hdec Hhost Huser. run_handler Hdec.
  rewrite Hhost, Huser. reflexivity.
Qed.

(** C8, the code at two inputs.  On a host whose name cannot be read the
    reply's name is "Unknown@UNKNOWN" although the user is root; for a
    process whose user cannot be looked up there is no reply, the handler
    panics. *)
Theorem info_request_unknown_user :
  handleConn hostlessEnv 7 initGlobals =
    (Returned, initGlobals,
     [EvEncode 7 (infoReply {| Name := "Unknown@UNKNOWN"; Interfaces := [] |})])
  ∧ handleConn userlessEnv 7 initGlobals =
    (Panicked "invalid memory address or nil pointer dereference", initGlobals, []).
Proof. split; vm_compute; reflexivity. Qed.

(** *** Ping and close *)

Definition pingResponse (p : HostPingResponsePacket) : Envelope :=
  {| Type_ := MessageHostPingResponse; Payload := PHostPingResponse p |}.

(** A host ping request is answered by one HostPingResponse whose alive
    flag is what [smartping.TryResolve] says of the address. *)
Lemma host_ping_reply (env : Env) (conn : Conn) (g : Globals)
    (req : HostPingRequestPacket) :
  Decode env conn = inr (request MessageHostPingRequest (PHostPingRequest req)) →
  ∃ o logs,
    handleConn env conn g =
      (o, g,
       EvEncode conn (pingResponse {| Alive := TryResolve env (ping_Address req) |}) :: logs)
    ∧ ∀ stream e, EvEncode stream e ∉ logs.
Proof.
  intros Hdec. run_handler Hdec. unfold pingResponse.
  destruct (Encode env conn _) as [e|]; cbn;
    eexists _, _; (split; [reflexivity | not_in_events]).
Qed.

(** A close envelope ends the agent process with exit code 0, whatever its
    payload, and nothing is written. *)
Lemma close_exits (env : Env) (conn : Conn) (g : Globals) (p : PayloadT) :
  Decode env conn = inr (request MessageClose p) →
  handleConn env conn g = (Exited 0, g, [])
  ∧ terminates_process (handleConn env conn g).1.1 = true.
Proof.
  intros Hdec. run_handler Hdec. split; reflexivity.
Qed.

(** An envelope of a response type is read and dropped: the handler
    returns without an event. *)
Lemma response_types_ignored (env : Env) (conn : Conn) (g : Globals) (p : PayloadT) :
  Decode env conn = inr (request MessageConnectResponse p) →
  handleConn env conn g = (Returned, g, []).
Proof.
  intros Hdec. run_handler Hdec. reflexivity.
Qed.

(** *** The counters *)

Example incr32_small : incr32 0 = 1 ∧ incr32 41 = 42.
Proof. split; reflexivity. Qed.

Example incr32_wraps : incr32 2147483647 = -2147483648.
Proof. reflexivity. Qed.

Lemma incr32_in_range (x : Z) : - 2 ^ 31 ≤ incr32 x < 2 ^ 31.
Proof.
  unfold incr32, wrap32.
  pose proof (Z.mod_pos_bound (x + 1 + 2 ^ 31) (2 ^ 32) ltac:(lia)). lia.
Qed.

Lemma incr32_no_overflow (x : Z) : - 2 ^ 31 ≤ x < 2 ^ 31 - 1 → incr32 x = x + 1.
Proof.
  intros Hx. unfold incr32, wrap32.
  rewrite Z.mod_small by lia. lia.
Qed.

(** *** The handlers at concrete sessions *)

Example connect_refused :
  handleConn refusedEnv 7 initGlobals
  = (Returned, initGlobals,
     [EvLog DebugLevel "Got connect request to 10.0.0.5:81";
      EvDial "tcp4" "10.0.0.5:81" 5000000000;
      EvEncode 7 (connectResponse {| Established := false; Reset := true |})]).
Proof. vm_compute. reflexivity. Qed.

Example connect_accepted :
  handleConn acceptedEnv 7 initGlobals
  = (Returned, initGlobals,
     [EvLog DebugLevel "Got connect request to 10.0.0.5:80";
      EvDial "tcp4" "10.0.0.5:80" 5000000000;
      EvEncode 7 (connectResponse {| Established := true; Reset := false |});
      EvRelay 9 7]).
Proof. vm_compute. reflexivity. Qed.

Example listener_parks_socket :
  handleConn listenEnv 3 initGlobals
  = (Blocked, parkedGlobals,
     [EvListen "tcp" "0.0.0.0:2222";
      EvEncode 3 {| Type_ := MessageListenerResponse;
                    Payload := PListenerResponse
                      {| lresp_ListenerID := 0; lresp_Err := false;
                         lresp_ErrString := "" |} |};
      EvEncode 3 {| Type_ := MessageListenerBindResponse;
                    Payload := PListenerBindReponse
                      {| bind_SockID := 1; bind_Err := false;
                         bind_ErrString := "" |} |}]).
Proof. vm_compute. reflexivity. Qed.

Definition parkedEvents : list Event := (handleConn listenEnv 3 initGlobals).2.

Lemma parked_reachable : reachable parkedGlobals parkedEvents.
Proof. exact (reach_session listenEnv 3 initGlobals [] reach_start eq_refl). Defined.

Lemma connect_request_reply_witness :
  Decode refusedEnv 7
    = inr (request MessageConnectRequest (PConnectRequest (connectTo "10.0.0.5" 81)))
  ∧ ∃ reply o rest,
      handleConn refusedEnv 7 initGlobals =
        (o, initGlobals,
         [EvLog DebugLevel "Got connect request to 10.0.0.5:81";
          EvDial "tcp4" "10.0.0.5:81" (5 * Second);
          EvEncode 7 (connectResponse reply)] ++ rest).
Proof.
  split; [reflexivity|].
  destruct (connect_request_reply refusedEnv 7 initGlobals (connectTo "10.0.0.5" 81) eq_refl)
    as (reply & o & rest & Hrun & _).
  exists reply, o, rest. exact Hrun.
Defined.

Lemma connect_response_flags_witness :
  EvEncode 7 (connectResponse {| Established := true; Reset := false |})
    ∈ (handleConn acceptedEnv 7 initGlobals).2
  ∧ Reset {| Established := true; Reset := false |} = false.
Proof.
  assert (Hin : EvEncode 7 (connectResponse {| Established := true; Reset := false |})
                  ∈ (handleConn acceptedEnv 7 initGlobals).2).
  { rewrite connect_accepted. cbn. set_solver. }
  split; [exact Hin|].
  exact (connect_response_flags acceptedEnv 7 initGlobals 7 _ Hin eq_refl).
Defined.

Lemma decode_failure_panics_witness :
  Decode quietEnv 1 = inl "EOF"
  ∧ serve [(quietEnv, 1); (pingEnv, 2)] initGlobals = (Ended (Panicked "EOF"), initGlobals, []).
Proof.
  split; [reflexivity|].
  exact (proj2 (proj2 (decode_failure_panics quietEnv 1 initGlobals "EOF" [(pingEnv, 2)] eq_refl))).
Defined.

(** C2, the claim at a session that does not decode: the agent process is
    ended by it, and the ping session behind it, which the agent would have
    answered, is not served. *)
Lemma decode_failure_ends_agent :
  Decode quietEnv 1 = inl "EOF"
  ∧ terminates_process (handleConn quietEnv 1 initGlobals).1.1 = true
  ∧ serve [(quietEnv, 1); (pingEnv, 2)] initGlobals
    = (Ended (Panicked "EOF"), initGlobals, [])
  ∧ serve [(pingEnv, 2)] initGlobals
    = (Serving, initGlobals,
       [EvEncode 2 {| Type_ := MessageHostPingResponse;
                      Payload := PHostPingResponse {| Alive := false |} |}]).
Proof. repeat split; vm_compute; reflexivity. Qed.

Lemma listener_close_reply_witness :
  Decode (closeEnv 0) 8
    = inr (request MessageListenerCloseRequest
             (PListenerCloseRequest {| clreq_ListenerID := 0 |}))
  ∧ ∃ reply closes logs,
      handleConn (closeEnv 0) 8 parkedGlobals =
        (Returned, parkedGlobals, closes ++ [EvEncode 8 (closeResponse reply)] ++ logs).
Proof.
  split; [reflexivity|].
  destruct (listener_close_reply (closeEnv 0) 8 parkedGlobals {| clreq_ListenerID := 0 |} eq_refl)
    as (reply & closes & logs & Hrun & _).
  exists reply, closes, logs. exact Hrun.
Defined.

(** C6, the claim at listener 0 of [parkedGlobals]: the close request
    closes server socket 5 and answers without an error, and the registry
    still has the listener under id 0. *)
Lemma closed_listener_stays_registered :
  listenerMap parkedGlobals !! 0 = Some 5
  ∧ (handleConn (closeEnv 0) 8 parkedGlobals).2
    = [EvListenerClose 5;
       EvEncode 8 (closeResponse {| clresp_Err := false; clresp_ErrString := "" |})]
  ∧ listenerMap (handleConn (closeEnv 0) 8 parkedGlobals).1.2 !! 0 = Some 5.
Proof. repeat split; vm_compute; reflexivity. Qed.

(** C4, the claim at socket 42, parked under id 1: the sock request for
    id 1 is answered and relayed and the table still has the entry; the
    close request for its listener closes the server socket alone, and the
    table still has the entry. *)
Lemma claimed_socket_stays_parked :
  listenerConntrack parkedGlobals !! 1 = Some 42
  ∧ (handleConn (sockEnv 1) 7 parkedGlobals).2
    = [EvEncode 7 (sockResponse {| sresp_Err := false; sresp_ErrString := "" |});
       EvRelay 42 7]
  ∧ listenerConntrack (handleConn (sockEnv 1) 7 parkedGlobals).1.2 !! 1 = Some 42
  ∧ (handleConn (closeEnv 0) 8 parkedGlobals).2
    = [EvListenerClose 5;
       EvEncode 8 (closeResponse {| clresp_Err := false; clresp_ErrString := "" |})]
  ∧ listenerConntrack (handleConn (closeEnv 0) 8 parkedGlobals).1.2 !! 1 = Some 42.
Proof. repeat split; vm_compute; reflexivity. Qed.

Lemma listener_sock_reply_witness :
  Decode (sockEnv 1) 7
    = inr (request MessageListenerSockRequest (PListenerSockRequest {| sreq_SockID := 1 |}))
  ∧ ∃ reply o rest,
      handleConn (sockEnv 1) 7 parkedGlobals
        = (o, parkedGlobals, EvEncode 7 (sockResponse reply) :: rest)
      ∧ (sresp_Err reply = false ↔ is_Some (listenerConntrack parkedGlobals !! 1)).
Proof.
  split; [reflexivity|].
  destruct (listener_sock_reply (sockEnv 1) 7 parkedGlobals {| sreq_SockID := 1 |} eq_refl)
    as (reply & o & rest & Hrun & _ & _ & Hiff).
  exists reply, o, rest. split; [exact Hrun | exact Hiff].
Defined.

(** The listener session of [listenEnv] on a session stream that cannot
    be written: every [Encode] on it fails. *)
Definition deafListenEnv : Env :=
  {| Decode := Decode listenEnv;
     Encode := λ _ _, Some "broken pipe";
     DialContext := DialContext listenEnv;
     HostResponded := HostResponded listenEnv;
     TryResolve := TryResolve listenEnv;
     Hostname := Hostname listenEnv;
     Current := Current listenEnv;
     net_Interfaces := net_Interfaces listenEnv;
     NewNetInterfaces := NewNetInterfaces listenEnv;
     net_Listen := net_Listen listenEnv;
     Close := Close listenEnv;
     accepted := accepted listenEnv;
     accept_error := accept_error listenEnv |}.

(** C7, the claim at a socket whose bind response was not streamed: on
    a listener session that cannot be written, the write of the bind
    response for socket 42 fails and is logged, and the socket is parked
    under id 1 all the same; the sock request for id 1 is then answered with
    err clear and relays socket 42, although no bind response for id 1 was
    streamed. *)
Lemma unwritten_bind_is_claimed :
  (∀ e, Encode deafListenEnv 3 e = Some "broken pipe")
  ∧ handleConn deafListenEnv 3 initGlobals
    = (Blocked, parkedGlobals,
       [EvListen "tcp" "0.0.0.0:2222";
        EvEncode 3 {| Type_ := MessageListenerResponse;
                      Payload := PListenerResponse
                        {| lresp_ListenerID := 0; lresp_Err := false;
                           lresp_ErrString := "" |} |};
        EvLog ErrorLevel "broken pipe";
        EvEncode 3 {| Type_ := MessageListenerBindResponse;
                      Payload := PListenerBindReponse
                        {| bind_SockID := 1; bind_Err := false;
                           bind_ErrString := "" |} |};
        EvLog ErrorLevel "broken pipe"])
  ∧ handleConn (sockEnv 1) 7 parkedGlobals
    = (Returned, parkedGlobals,
       [EvEncode 7 (sockResponse {| sresp_Err := false; sresp_ErrString := "" |});
        EvRelay 42 7]).
Proof.
  split; [intros e; reflexivity|].
  split; vm_compute; reflexivity.
Qed.

Lemma info_request_name_witness :
  ∃ o logs,
    handleConn (withRequest quietEnv MessageInfoRequest PInfoRequest) 7 initGlobals =
      (o, initGlobals,
       EvEncode 7 (infoReply {| Name := "root@box"; Interfaces := [] |}) :: logs).
Proof.
  exact (info_request_name (withRequest quietEnv MessageInfoRequest PInfoRequest) 7 initGlobals
           "box" {| Username := "root" |} [] eq_refl eq_refl eq_refl eq_refl).
Defined.

Lemma host_ping_reply_witness :
  ∃ o logs,
    handleConn pingEnv 2 initGlobals =
      (o, initGlobals, EvEncode 2 (pingResponse {| Alive := false |}) :: logs)
    ∧ ∀ stream e, EvEncode stream e ∉ logs.
Proof.
  exact (host_ping_reply pingEnv 2 initGlobals {| ping_Address := "10.0.0.5" |} eq_refl).
Defined.

Lemma close_exits_witness :
  handleConn (withRequest quietEnv MessageClose PClose) 4 parkedGlobals
    = (Exited 0, parkedGlobals, [])
  ∧ terminates_process
      (handleConn (withRequest quietEnv MessageClose PClose) 4 parkedGlobals).1.1 = true.
Proof.
  exact (close_exits (withRequest quietEnv MessageClose PClose) 4 parkedGlobals PClose eq_refl).
Defined.

End agent_props.

(** ** Properties of the stack host *)

Module netstack_props.
Import netstack.

(** *** Tun-connections of each kind, as the package builds them *)

Definition tcpTunConn (request : ForwarderRequest) : TunConn :=
  {| Protocol := tcp_ProtocolNumber;
     Handler := HTCPConn {| tcp_EndpointID := request_ID request; tcp_Request := request |} |}.

Definition udpTunConn (request : ForwarderRequest) : TunConn :=
  {| Protocol := udp_ProtocolNumber;
     Handler := HUDPConn {| udp_EndpointID := request_ID request; udp_Request := request |} |}.

Definition icmpTunConn (pkt : PacketBuffer) : TunConn :=
  {| Protocol := icmp_ProtocolNumber4; Handler := HICMPConn {| icmp_Request := pkt |} |}.

(** Modelled from the spec: the pool of section 4.3 with a configured
    capacity; its enqueue does not block, so [Add] on a full queue fails. *)
Record BoundedPool := {
  capacity : nat;
  pending : SpecPool
}.

#[export] Instance BoundedPool_ops : ConnPoolOps BoundedPool := {
  Closed p := closed (pending p);
  Add p tc :=
    if closed (pending p) then (p, Some "closed pool")
    else if bool_decide (length (queue (pending p)) < capacity p)%nat
         then ({| capacity := capacity p;
                  pending := {| closed := false; queue := queue (pending p) ++ [tc] |} |},
               None)
         else (p, Some "pool is full")
}.

(** What a forwarder callback may do with the tun-connection [tc] it built
    for a stack host [s]: with no pool or a closed pool, nothing but take
    and release the lock; else [Add] it to the pool, and log the error if
    [Add] fails.  The request is completed in neither case. *)
Definition drops_or_adds {P} `{ConnPoolOps P} (s : NetStack P) (tc : TunConn)
    (r : NetStack P * list Event) : Prop :=
  match pool s with
  | None => r = (s, [EvLock; EvUnlock])
  | Some p =>
      if Closed p then r = (s, [EvLock; EvUnlock])
      else
        r = ({| pool := Some (Add p tc).1; stack := stack s |},
             match (Add p tc).2 with
             | Some err => [EvLock; EvLogError err; EvUnlock]
             | None => [EvLock; EvUnlock]
             end)
  end
  ∧ ∀ request reset, EvComplete request reset ∉ r.2.

Ltac not_in_events :=
  let Hin := fresh "Hin" in
  intros; intros Hin;
  repeat (apply elem_of_cons in Hin; destruct Hin as [Hin | Hin]; [discriminate Hin|]);
  apply elem_of_nil in Hin; exact Hin.

Lemma forward_drops_or_adds {P} `{ConnPoolOps P} (s : NetStack P) (tc : TunConn) :
  drops_or_adds s tc (forward s tc).
Proof.
  unfold drops_or_adds, forward.
  destruct (pool s) as [p|]; [|split; [reflexivity | not_in_events]].
  destruct (Closed p); [split; [reflexivity | not_in_events]|].
  destruct (Add p tc) as [p1 [err|]]; cbn; (split; [reflexivity | not_in_events]).
Qed.

(** C3.  The TCP callback and the UDP callback, for every stack host and
    every request: if the pool is nil or closed the callback returns with
    the host as it was and the request not completed; otherwise it adds the
    tun-connection of its kind to the pool, logs the error if the pool
    refuses it, and leaves the request uncompleted then too. *)
Theorem forwarder_callbacks_drop_or_add {P} `{ConnPoolOps P} (s : NetStack P)
    (request : ForwarderRequest) :
  drops_or_adds s (tcpTunConn request) (tcpForwarderCallback s request)
  ∧ drops_or_adds s (udpTunConn request) (udpForwarderCallback s request).
Proof.
  split; [apply (forward_drops_or_adds s (tcpTunConn request))
         | apply (forward_drops_or_adds s (udpTunConn request))].
Qed.

Definition synRequest : ForwarderRequest :=
  {| request_ptr := 100;
     request_ID := {| LocalPort := 80; LocalAddress := "10.0.0.5";
                      RemotePort := 40000; RemoteAddress := "192.168.1.2" |} |}.

Example forwarder_open_pool :
  tcpForwarderCallback
    {| pool := Some {| closed := false; queue := [] |}; stack := None |} synRequest
  = ({| pool := Some {| closed := false; queue := [tcpTunConn synRequest] |}; stack := None |},
     [EvLock; EvUnlock]).
Proof. reflexivity. Qed.

Example forwarder_closed_pool :
  tcpForwarderCallback
    {| pool := Some {| closed := true; queue := [] |}; stack := None |} synRequest
  = ({| pool := Some {| closed := true; queue := [] |}; stack := None |}, [EvLock; EvUnlock]).
Proof. reflexivity. Qed.

Example forwarder_nil_pool :
  udpForwarderCallback {| pool := @None SpecPool; stack := None |} synRequest
  = ({| pool := None; stack := None |}, [EvLock; EvUnlock]).
Proof. reflexivity. Qed.

Example forwarder_full_pool :
  udpForwarderCallback
    {| pool := Some {| capacity := 0; pending := {| closed := false; queue := [] |} |};
       stack := None |} synRequest
  = ({| pool := Some {| capacity := 0; pending := {| closed := false; queue := [] |} |};
        stack := None |},
     [EvLock; EvLogError "pool is full"; EvUnlock]).
Proof. reflexivity. Qed.

(** *** [Terminate] *)

Lemma Terminate_not_tcp (t : TunConn) (reset : bool) :
  IsTCP t = false → Terminate t reset = Ok [].
Proof. intros Hkind. unfold Terminate. rewrite Hkind. reflexivity. Qed.

(** C5, as amended.  [Terminate] completes the forwarder request of a
    TCP tun-connection, with a reset or without as the flag says, and does
    nothing at all for a UDP or an ICMP tun-connection: no packet buffer is
    released. *)
Theorem terminate_completes_tcp_only (request : ForwarderRequest) (pkt : PacketBuffer)
    (reset : bool) :
  Terminate (tcpTunConn request) reset = Ok [EvComplete request reset]
  ∧ Terminate (udpTunConn request) reset = Ok []
  ∧ Terminate (icmpTunConn pkt) reset = Ok [].
Proof. repeat split. Qed.

(** C5, the claim at the ICMP tun-connection of packet buffer 77: the
    lifecycle has its buffer released, [Terminate] does nothing. *)
Lemma terminate_leaves_icmp_buffer :
  Terminate_lifecycle (icmpTunConn 77) true = [EvDecRef 77]
  ∧ Terminate (icmpTunConn 77) true = Ok []
  ∧ Terminate (icmpTunConn 77) true ≠ Ok (Terminate_lifecycle (icmpTunConn 77) true).
Proof. repeat split. discriminate. Qed.

(** *** The stack that [new] builds *)

(** The route table of [new]: one default route for each family, both via
    NIC 1. *)
Definition default_routes : list Route :=
  [ {| Destination := IPv4EmptySubnet; NIC := 1 |};
    {| Destination := IPv6EmptySubnet; NIC := 1 |} ].

(** The settings of a stack that the specification lists for the stack
    host, [linkEP] being the link endpoint of NIC 1. *)
Record configured (linkEP : LinkEndpoint) (ns : Stack) : Prop := {
  cfg_sack : TCPSACKEnabled ns = false;
  cfg_syn_cookies : TCPAlwaysUseSynCookies ns = false;
  cfg_forwarding_v4 : defaultForwarding ns !! ipv4_ProtocolNumber = Some false;
  cfg_forwarding_v6 : defaultForwarding ns !! ipv6_ProtocolNumber = Some false;
  cfg_nic :
    ∃ nic, nics ns !! 1 = Some nic
           ∧ nic_endpoint nic = linkEP
           ∧ Promiscuous nic = true
           ∧ Spoofing nic = true
           ∧ nic_forwarding nic !! ipv4_ProtocolNumber = Some false
           ∧ nic_forwarding nic !! ipv6_ProtocolNumber = Some false;
  cfg_icmp_limit : icmpLimit ns = 0;
  cfg_icmp_burst : icmpBurst ns = 0;
  cfg_routes : routeTable ns = default_routes
}.

(** C9.  When the TUN device gives its MTU and opens, the link endpoint
    is built and the ICMP responder starts, [new] returns a stack host whose
    stack has SACK and always-use-SYN-cookies off, forwarding off for IPv4
    and IPv6, NIC 1 over the link endpoint with promiscuous mode and
    spoofing on, ICMP limit and burst zero, and the two default routes via
    NIC 1 as its route table, whatever the library's defaults are. *)
Theorem new_configures_stack {P} `{ConnPoolOps P} (env : HostEnv) (s : NetStack P)
    (tunName : string) (mtu fd : Z) (linkEP : LinkEndpoint) :
  rawfile_GetMTU env tunName = inr mtu →
  tun_Open env tunName = inr fd →
  fdbased_New env [fd] mtu = inr linkEP →
  (∀ ns, icmpResponder env ns = None) →
  ∃ ns, new env s tunName = Ok {| pool := pool s; stack := Some ns |}
        ∧ configured linkEP ns.
Proof.
  intros Hmtu Hfd Hep Hicmp. unfold new. rewrite Hmtu, Hfd, Hep.
  cbv zeta.
  destruct (CreateNIC 1 linkEP _) as [err | ns1] eqn:Hnic.
  { vm_compute in Hnic. discriminate Hnic. }
  rewrite Hicmp. eexists. split; [reflexivity|].
  vm_compute in Hnic. injection Hnic as <-.
  split; try (vm_compute; reflexivity).
  eexists. split; [vm_compute; reflexivity|].
  repeat split; vm_compute; reflexivity.
Qed.

Lemma new_configures_stack_witness :
  ∃ ns, NewStack tunHost "ligolo" (Some {| closed := false; queue := [] |})
          = Ok {| pool := Some {| closed := false; queue := [] |}; stack := Some ns |}
        ∧ configured 9 ns.
Proof.
  exact (new_configures_stack tunHost
           {| pool := Some {| closed := false; queue := [] |}; stack := None |}
           "ligolo" 1500 3 9 eq_refl eq_refl eq_refl (λ _, eq_refl)).
Defined.

End netstack_props.

(** ** More of the agent: listener sessions, failed writes, the loop of [main] *)

Module agent_sessions.
Import agent agent_props.

(** *** The accept loop *)

(** The package-level variables after a socket has been parked. *)
Definition parkOne (c : Conn) (g : Globals) : Globals :=
  {| listenerConntrack := <[incr32 (connTrackID g) := c]> (listenerConntrack g);
     listenerMap := listenerMap g;
     connTrackID := incr32 (connTrackID g);
     listenerID := listenerID g |}.

Definition parkAll (conns : list Conn) (g : Globals) : Globals :=
  foldl (λ g c, parkOne c g) g conns.

(** The ids of the sockets that the bind responses among the events
    announce, in the order of the events. *)
Definition announced_id (e : Event) : option Z :=
  match e with
  | EvEncode _ envelope =>
      match Payload envelope with
      | PListenerBindReponse b => if bind_Err b then None else Some (bind_SockID b)
      | _ => None
      end
  | _ => None
  end.

Definition announced_ids (t : list Event) : list Z := omap announced_id t.

Lemma announced_ids_app (t1 t2 : list Event) :
  announced_ids (t1 ++ t2) = announced_ids t1 ++ announced_ids t2.
Proof. apply omap_app. Qed.

Lemma acceptOne_state (env : Env) (conn c : Conn) (g : Globals) :
  (acceptOne env conn c g).1 = (Val tt, parkOne c g).
Proof. rewrite acceptOne_run. reflexivity. Qed.

Lemma acceptLoop_cons (env : Env) (conn c : Conn) (conns : list Conn) (g : Globals) :
  acceptLoop env conn (c :: conns) g =
    ((acceptLoop env conn conns (parkOne c g)).1,
     (acceptOne env conn c g).2 ++ (acceptLoop env conn conns (parkOne c g)).2).
Proof.
  cbn [acceptLoop]. unfold bind at 1.
  pose proof (acceptOne_state env conn c g) as Hst.
  destruct (acceptOne env conn c g) as [[r g1] t1]. cbn in Hst.
  injection Hst as -> ->. cbn [snd].
  destruct (acceptLoop env conn conns (parkOne c g)) as [[r2 g2] t2]. reflexivity.
Qed.

(** The loop never stops the handler, and what it leaves in the
    package-level variables does not depend on what is written. *)
Lemma acceptLoop_state (env : Env) (conn : Conn) (conns : list Conn) (g : Globals) :
  (acceptLoop env conn conns g).1 = (Val tt, parkAll conns g).
Proof.
  revert g. induction conns as [|c conns IH]; intros g; [reflexivity|].
  rewrite acceptLoop_cons. cbn [fst]. rewrite IH. reflexivity.
Qed.

Lemma parkAll_cons (c : Conn) (conns : list Conn) (g : Globals) :
  parkAll (c :: conns) g = parkAll conns (parkOne c g).
Proof. reflexivity. Qed.

Lemma parkAll_registry (conns : list Conn) (g : Globals) :
  listenerMap (parkAll conns g) = listenerMap g
  ∧ listenerID (parkAll conns g) = listenerID g.
Proof.
  revert g. induction conns as [|c conns IH]; intros g; [split; reflexivity|].
  rewrite parkAll_cons. destruct (IH (parkOne c g)) as [-> ->]. split; reflexivity.
Qed.

Definition int32 (x : Z) : Prop := - 2 ^ 31 ≤ x < 2 ^ 31.

(** *** A listener session *)

Definition listenerResponse (p : ListenerResponsePacket) : Envelope :=
  {| Type_ := MessageListenerResponse; Payload := PListenerResponse p |}.

Definition bindResponse (p : ListenerBindReponse) : Envelope :=
  {| Type_ := MessageListenerBindResponse; Payload := PListenerBindReponse p |}.

(** The error that [encode_or_log] logs when the write of [e] fails. *)
Definition write_log (env : Env) (conn : Conn) (e : Envelope) : list Event :=
  match Encode env conn e with
  | Some err => [EvLog ErrorLevel err]
  | None => []
  end.

(** What the handler does once [ListenAndServe] has returned the error
    [stop], if it has. *)
Definition closing (env : Env) (conn : Conn) (l : Listener) : list Event :=
  match accept_error env with
  | None => []
  | Some err =>
      [EvLog ErrorLevel err;
       EvEncode conn (bindResponse {| bind_SockID := 0; bind_Err := true;
                                      bind_ErrString := err |})]
      ++ write_log env conn (bindResponse {| bind_SockID := 0; bind_Err := true;
                                             bind_ErrString := err |})
      ++ [EvListenerClose l]
  end.

Lemma listener_session_run (env : Env) (conn : Conn) (g : Globals)
    (req : ListenerRequestPacket) (l : Listener) :
  Decode env conn = inr (request MessageListenerRequest (PListenerRequest req)) →
  net_Listen env (lreq_Network req) (lreq_Address req) = inr l →
  handleConn env conn g =
    (match accept_error env with None => Blocked | Some _ => Returned end,
     parkAll (accepted env) (register l g),
     [EvListen (lreq_Network req) (lreq_Address req);
      EvEncode conn (listenerResponse {| lresp_ListenerID := listenerID g;
                                         lresp_Err := false; lresp_ErrString := "" |})]
     ++ write_log env conn
          (listenerResponse {| lresp_ListenerID := listenerID g;
                               lresp_Err := false; lresp_ErrString := "" |})
     ++ (acceptLoop env conn (accepted env) (register l g)).2
     ++ closing env conn l).
Proof.
  intros Hdec Hlisten. unfold request in Hdec.
  unfold handleConn, run, handleConn_body. rewrite Hdec. cbn [Payload Type_].
  unfold caseListenerRequest, NewListener.
  unfold bind at 1. cbn [emit ret bind]. unfold bind at 1. cbn [emit ret].
  rewrite Hlisten.
  unfold bind at 1. cbn [gets]. unfold bind at 1. cbn [modify].
  fold (register l g).
  unfold bind at 1. unfold encode_or_log at 1, encode, logrus_Error.
  unfold bind at 1. unfold bind at 1. cbn [emit ret].
  unfold closing; unfold write_log, listenerResponse, bindResponse.
  set (resp := {| Type_ := MessageListenerResponse; Payload := _ |}).
  pose proof (acceptLoop_state env conn (accepted env) (register l g)) as Hloop.
  destruct (Encode env conn resp) as [e1|]; cbn [emit ret];
    (unfold bind at 1;
     destruct (acceptLoop env conn (accepted env) (register l g)) as [[r2 g2] t2];
     cbn in Hloop; injection Hloop as -> ->; cbn [snd];
     destruct (accept_error env) as [stop|]; cbn [halt];
     [ unfold encode_or_log, encode, logrus_Error, Listener_Close;
       cbv [bind emit ret];
       destruct (Encode env conn _) as [e2|]; cbn; rewrite ?app_nil_r;
       repeat (rewrite <- ?app_assoc; cbn); reflexivity
     | cbn; rewrite ?app_nil_r; reflexivity ]).
Qed.

(** The hypothesis puts an event of one shape in a list of events of other
    shapes. *)
Ltac absurd_in H :=
  repeat (apply elem_of_cons in H; destruct H as [H | H]; [discriminate H|]);
  apply elem_of_nil in H; exact H.

Lemma announced_ids_write_log (env : Env) (conn : Conn) (e : Envelope) :
  announced_ids (write_log env conn e) = [].
Proof. unfold write_log. destruct (Encode env conn e); reflexivity. Qed.

Lemma announced_ids_closing (env : Env) (conn : Conn) (l : Listener) :
  announced_ids (closing env conn l) = [].
Proof.
  unfold closing. destruct (accept_error env) as [err|]; [|reflexivity].
  rewrite !announced_ids_app, announced_ids_write_log. reflexivity.
Qed.

Lemma incr32_ne (x : Z) : incr32 x ≠ x.
Proof.
  unfold incr32, wrap32. intros Heq.
  pose proof (Z.mod_pos_bound (x + 1 + 2 ^ 31) (2 ^ 32) ltac:(lia)) as Hb.
  destruct (decide (x + 1 + 2 ^ 31 < 2 ^ 32)) as [Hlt | Hge].
  - rewrite Z.mod_small in Heq by lia. lia.
  - assert (Hx : x + 1 + 2 ^ 31 = 2 ^ 32) by lia.
    rewrite Hx, Z.mod_same in Heq by lia. lia.
Qed.

Lemma listener_open_failure_run (env : Env) (conn : Conn) (g : Globals)
    (req : ListenerRequestPacket) (err : string) :
  Decode env conn = inr {| Type_ := MessageListenerRequest;
                           Payload := PListenerRequest req |} →
  net_Listen env (lreq_Network req) (lreq_Address req) = inl err →
  handleConn env conn g =
    (Returned, g,
     [EvListen (lreq_Network req) (lreq_Address req);
      EvEncode conn (listenerResponse {| lresp_ListenerID := 0; lresp_Err := true;
                                         lresp_ErrString := err |})]
     ++ write_log env conn
          (listenerResponse {| lresp_ListenerID := 0; lresp_Err := true;
                               lresp_ErrString := err |})).
Proof.
  intros Hdec Hlisten.
  unfold handleConn, run, handleConn_body. rewrite Hdec. cbn [Payload Type_].
  cbv [caseListenerRequest NewListener encode_or_log encode logrus_Error bind emit ret].
  rewrite Hlisten. unfold write_log, listenerResponse.
  destruct (Encode env conn _); reflexivity.
Qed.

(** A listener request whose listen fails is answered by one
    ListenerResponse with err set, listener id 0 and the error's text; no
    listener is registered and no listener id is used up. *)
Theorem listener_open_failure (env : Env) (conn : Conn) (g : Globals)
    (req : ListenerRequestPacket) (err : string) :
  Decode env conn = inr (request MessageListenerRequest (PListenerRequest req)) →
  net_Listen env (lreq_Network req) (lreq_Address req) = inl err →
  handleConn env conn g =
    (Returned, g,
     [EvListen (lreq_Network req) (lreq_Address req);
      EvEncode conn (listenerResponse {| lresp_ListenerID := 0; lresp_Err := true;
                                         lresp_ErrString := err |})]
     ++ write_log env conn
          (listenerResponse {| lresp_ListenerID := 0; lresp_Err := true;
                               lresp_ErrString := err |})).
Proof.
  intros Hdec Hlisten. exact (listener_open_failure_run env conn g req err Hdec Hlisten).
Qed.

(** A listener request whose listen succeeds registers the listener under
    the value [listenerID] had, which is the id the ListenerResponse
    carries, and increments [listenerID]; the listeners registered under
    other ids stay.  This holds however many sockets the listener then
    accepts and whether or not the writes on the session succeed. *)
Theorem listener_registers (env : Env) (conn : Conn) (g : Globals)
    (req : ListenerRequestPacket) (l : Listener) :
  Decode env conn = inr (request MessageListenerRequest (PListenerRequest req)) →
  net_Listen env (lreq_Network req) (lreq_Address req) = inr l →
  listenerMap (handleConn env conn g).1.2 = <[listenerID g := l]> (listenerMap g)
  ∧ listenerID (handleConn env conn g).1.2 = incr32 (listenerID g)
  ∧ (handleConn env conn g).2 !! 1%nat
    = Some (EvEncode conn (listenerResponse {| lresp_ListenerID := listenerID g;
                                               lresp_Err := false;
                                               lresp_ErrString := "" |}))
  ∧ ∀ id l0, id ≠ listenerID g → listenerMap g !! id = Some l0 →
             listenerMap (handleConn env conn g).1.2 !! id = Some l0.
Proof.
  intros Hdec Hlisten. rewrite (listener_session_run env conn g req l Hdec Hlisten).
  cbn [fst snd]. destruct (parkAll_registry (accepted env) (register l g)) as [Hmap Hid].
  rewrite Hmap, Hid. cbn [register listenerMap listenerID].
  split; [reflexivity|]. split; [reflexivity|]. split; [reflexivity|].
  intros id l0 Hne Hl0. rewrite lookup_insert_ne by congruence. exact Hl0.
Qed.

(** A listener session ends only when the listener's Accept fails: the
    handler then logs the error, streams a last bind response with err set
    and the error's text, closes the listener and returns, and the listener
    is still in the registry.  Until then the handler waits in its loop. *)
Theorem listener_session_end (env : Env) (conn : Conn) (g : Globals)
    (req : ListenerRequestPacket) (l : Listener) :
  Decode env conn = inr (request MessageListenerRequest (PListenerRequest req)) →
  net_Listen env (lreq_Network req) (lreq_Address req) = inr l →
  match accept_error env with
  | None => (handleConn env conn g).1.1 = Blocked
            ∧ ∀ l0, EvListenerClose l0 ∉ (handleConn env conn g).2
  | Some stop =>
      (handleConn env conn g).1.1 = Returned
      ∧ ∃ before logs,
          (handleConn env conn g).2 =
            before
            ++ [EvLog ErrorLevel stop;
                EvEncode conn (bindResponse {| bind_SockID := 0; bind_Err := true;
                                               bind_ErrString := stop |})]
            ++ logs ++ [EvListenerClose l]
          ∧ (∀ l0, EvListenerClose l0 ∉ before ++ logs)
  end
  ∧ listenerMap (handleConn env conn g).1.2 !! listenerID g = Some l.
Proof.
  intros Hdec Hlisten. rewrite (listener_session_run env conn g req l Hdec Hlisten).
  cbn [fst snd].
  assert (Hloop : ∀ conns g0 l0, EvListenerClose l0 ∉ (acceptLoop env conn conns g0).2).
  { induction conns as [|c conns IH]; intros g0 l0.
    - cbn. apply not_elem_of_nil.
    - rewrite acceptLoop_cons. cbn [snd]. rewrite acceptOne_run. cbn [snd].
      intros Hin. apply elem_of_app in Hin as [Hin | Hin]; [|exact (IH _ _ Hin)].
      apply elem_of_cons in Hin as [Hin | Hin]; [discriminate|].
      destruct (Encode env conn _); [apply list_elem_of_singleton in Hin; discriminate|].
      apply elem_of_nil in Hin. exact Hin. }
  assert (Hlog : ∀ e l0, EvListenerClose l0 ∉ write_log env conn e).
  { intros e l0. unfold write_log. destruct (Encode env conn e); not_in_events. }
  split.
  - unfold closing. destruct (accept_error env) as [stop|].
    + split; [reflexivity|].
      exists
        ([EvListen (lreq_Network req) (lreq_Address req);
          EvEncode conn (listenerResponse {| lresp_ListenerID := listenerID g;
                                             lresp_Err := false;
                                             lresp_ErrString := "" |})]
         ++ write_log env conn
              (listenerResponse {| lresp_ListenerID := listenerID g;
                                   lresp_Err := false; lresp_ErrString := "" |})
         ++ (acceptLoop env conn (accepted env) (register l g)).2),
        (write_log env conn
           (bindResponse {| bind_SockID := 0; bind_Err := true;
                            bind_ErrString := stop |})).
      split.
      * rewrite <- !app_assoc. reflexivity.
      * intros l0 Hin.
        rewrite !elem_of_app in Hin.
        destruct Hin as [[Hin | [Hin | Hin]] | Hin];
          [ absurd_in Hin | exact (Hlog _ _ Hin)
          | exact (Hloop _ _ _ Hin) | exact (Hlog _ _ Hin) ].
    + split; [reflexivity|]. intros l0 Hin.
      rewrite !elem_of_app in Hin.
      destruct Hin as [Hin | [Hin | [Hin | Hin]]];
        [ absurd_in Hin | exact (Hlog _ _ Hin)
        | exact (Hloop _ _ _ Hin) | apply elem_of_nil in Hin; exact Hin ].
  - destruct (parkAll_registry (accepted env) (register l g)) as [-> _].
    cbn. apply lookup_insert_eq.
Qed.

(** *** A listener session, then a request that names what it made *)

(** After a listener session, a close request for the id its
    ListenerResponse carried closes that very listener, and the reply's err
    says whether the close failed. *)
Theorem registered_listener_is_closed (env1 env2 : Env) (conn1 conn2 : Conn) (g : Globals)
    (req : ListenerRequestPacket) (l : Listener) :
  Decode env1 conn1 = inr (request MessageListenerRequest (PListenerRequest req)) →
  net_Listen env1 (lreq_Network req) (lreq_Address req) = inr l →
  Decode env2 conn2
    = inr (request MessageListenerCloseRequest
             (PListenerCloseRequest {| clreq_ListenerID := listenerID g |})) →
  ∃ logs,
    handleConn env2 conn2 (handleConn env1 conn1 g).1.2 =
      (Returned, (handleConn env1 conn1 g).1.2,
       [EvListenerClose l;
        EvEncode conn2 (closeResponse {| clresp_Err := is_err (Close env2 l);
                                         clresp_ErrString := default "" (Close env2 l) |})]
       ++ logs)
    ∧ ∀ l0, EvListenerClose l0 ∉ logs.
Proof.
  intros Hdec1 Hlisten Hdec2.
  rewrite (listener_session_run env1 conn1 g req l Hdec1 Hlisten). cbn [fst snd].
  assert (Hfound : listenerMap (parkAll (accepted env1) (register l g)) !! listenerID g
                   = Some l).
  { destruct (parkAll_registry (accepted env1) (register l g)) as [-> _].
    cbn. apply lookup_insert_eq. }
  run_handler Hdec2. cbn [clreq_ListenerID]. rewrite Hfound. unfold closeResponse.
  destruct (Close env2 l) as [msg|]; cbn;
    destruct (Encode env2 conn2 _) as [e|]; cbn;
    eexists; (split; [reflexivity | not_in_events]).
Qed.

(** Two listener sessions in a row: both listeners are registered, under
    different ids, also when [listenerID] wraps around between them. *)
Theorem second_listener_keeps_first (env1 env2 : Env) (conn1 conn2 : Conn) (g : Globals)
    (req1 req2 : ListenerRequestPacket) (l1 l2 : Listener) :
  Decode env1 conn1 = inr (request MessageListenerRequest (PListenerRequest req1)) →
  net_Listen env1 (lreq_Network req1) (lreq_Address req1) = inr l1 →
  Decode env2 conn2 = inr (request MessageListenerRequest (PListenerRequest req2)) →
  net_Listen env2 (lreq_Network req2) (lreq_Address req2) = inr l2 →
  listenerMap (handleConn env2 conn2 (handleConn env1 conn1 g).1.2).1.2 !! listenerID g
    = Some l1
  ∧ listenerMap (handleConn env2 conn2 (handleConn env1 conn1 g).1.2).1.2
      !! incr32 (listenerID g) = Some l2
  ∧ incr32 (listenerID g) ≠ listenerID g.
Proof.
  intros Hdec1 Hl1 Hdec2 Hl2.
  rewrite (listener_session_run env2 conn2 _ req2 l2 Hdec2 Hl2). cbn [fst snd].
  rewrite (listener_session_run env1 conn1 g req1 l1 Hdec1 Hl1). cbn [fst snd].
  destruct (parkAll_registry (accepted env2)
              (register l2 (parkAll (accepted env1) (register l1 g)))) as [-> _].
  cbn [register listenerMap listenerID].
  destruct (parkAll_registry (accepted env1) (register l1 g)) as [-> ->].
  cbn [register listenerMap listenerID].
  pose proof (incr32_ne (listenerID g)) as Hne.
  split; [|split; [apply lookup_insert_eq | exact Hne]].
  rewrite lookup_insert_ne by exact Hne. apply lookup_insert_eq.
Qed.

(** At the end of the int32 range the counter wraps: with [connTrackID]
    at 2147483647, the next accepted socket is parked and announced under
    -2147483648. *)
Theorem conntrack_id_wraps (env : Env) (conn : Conn) (g : Globals)
    (req : ListenerRequestPacket) (l : Listener) (c : Conn) :
  Decode env conn = inr (request MessageListenerRequest (PListenerRequest req)) →
  net_Listen env (lreq_Network req) (lreq_Address req) = inr l →
  connTrackID g = 2 ^ 31 - 1 →
  accepted env = [c] →
  listenerConntrack (handleConn env conn g).1.2 !! (- 2 ^ 31) = Some c
  ∧ connTrackID (handleConn env conn g).1.2 = - 2 ^ 31
  ∧ announced_ids (handleConn env conn g).2 = [- 2 ^ 31].
Proof.
  intros Hdec Hlisten Hmax Hacc.
  rewrite (listener_session_run env conn g req l Hdec Hlisten). cbn [fst snd].
  rewrite Hacc. cbn [parkAll foldl parkOne register connTrackID listenerConntrack].
  rewrite Hmax. change (incr32 (2 ^ 31 - 1)) with (- 2 ^ 31).
  split; [apply lookup_insert_eq|]. split; [reflexivity|].
  rewrite !announced_ids_app, announced_ids_write_log, announced_ids_closing.
  cbn [acceptLoop]. unfold bind. rewrite acceptOne_run. cbn [register connTrackID].
  rewrite Hmax. change (incr32 (2 ^ 31 - 1)) with (- 2 ^ 31).
  cbn [ret snd]. rewrite app_nil_r.
  unfold announced_ids. cbn. destruct (Encode env conn _); reflexivity.
Qed.

(** *** What a session touches *)

Definition is_listener_request (d : string + Envelope) : bool :=
  match d with
  | inr {| Type_ := MessageListenerRequest; Payload := PListenerRequest _ |} => true
  | _ => false
  end.

(** Every step of a handler but the listener's: case analysis on what the
    environment answers. *)
Ltac crunch :=
  repeat (cbn;
          match goal with
          | |- context [match ?x with _ => _ end] =>
              lazymatch x with
              | context [match _ with _ => _ end] => fail
              | _ => destruct x eqn:?
              end
          end);
  cbn.

Ltac unfold_cases :=
  cbv [caseConnectRequest caseHostPingRequest caseInfoRequest caseListenerCloseRequest
       caseListenerSockRequest caseListenerRequest NewListener encode_or_log
       bad_assertion logrus_Debug logrus_Error logrus_Fatal
       Listener_Close StartRelay encode panic halt emit ret bind gets modify].

Lemma only_listener_sessions_write_run (env : Env) (conn : Conn) (g : Globals) :
  is_listener_request (Decode env conn) = false →
  (handleConn env conn g).1.2 = g.
Proof.
  unfold is_listener_request, handleConn, run, handleConn_body.
  destruct (Decode env conn) as [err | [ty p]]; [reflexivity|].
  cbn [Type_ Payload].
  destruct ty; try (intros _; reflexivity);
    destruct p; try discriminate; intros _;
    unfold_cases; crunch; congruence.
Qed.

(** Only a listener session writes the package-level variables: whatever
    else is decoded, and also when nothing is, the tables and the counters
    are after the session what they were before it. *)
Theorem only_listener_sessions_write (env : Env) (conn : Conn) (g : Globals) :
  is_listener_request (Decode env conn) = false →
  (handleConn env conn g).1.2 = g.
Proof. exact (only_listener_sessions_write_run env conn g). Qed.

(** A session writes on its own stream and relays with its own stream:
    no envelope of a session goes to another session. *)
Definition own_stream (conn : Conn) (e : Event) : Prop :=
  match e with
  | EvEncode stream _ => stream = conn
  | EvRelay _ b => b = conn
  | _ => True
  end.

Lemma acceptLoop_own_stream (env : Env) (conn : Conn) (conns : list Conn) (g : Globals) :
  Forall (own_stream conn) (acceptLoop env conn conns g).2.
Proof.
  revert g. induction conns as [|c conns IH]; intros g; [constructor|].
  rewrite acceptLoop_cons. cbn [snd]. apply Forall_app. split; [|apply IH].
  rewrite acceptOne_run. cbn [snd]. constructor; [reflexivity|].
  destruct (Encode env conn _); repeat constructor.
Qed.

Lemma write_log_own_stream (env : Env) (conn : Conn) (e : Envelope) :
  Forall (own_stream conn) (write_log env conn e).
Proof. unfold write_log. destruct (Encode env conn e); repeat constructor. Qed.

Lemma listener_own_stream (env : Env) (conn : Conn) (g : Globals) (p : PayloadT) :
  Decode env conn = inr {| Type_ := MessageListenerRequest; Payload := p |} →
  Forall (own_stream conn) (handleConn env conn g).2.
Proof.
  intros Hdec.
  destruct p;
    try (unfold handleConn, run, handleConn_body; rewrite Hdec; constructor).
  destruct (net_Listen env (lreq_Network p) (lreq_Address p)) as [e | l] eqn:Hl.
  - rewrite (listener_open_failure_run env conn g p e Hdec Hl). cbn [snd].
    apply Forall_app. split; [repeat constructor | apply write_log_own_stream].
  - rewrite (listener_session_run env conn g p l Hdec Hl). cbn [snd].
    repeat (apply Forall_app; split);
      try apply write_log_own_stream; try apply acceptLoop_own_stream;
      try (repeat constructor).
    unfold closing. destruct (accept_error env); [|constructor].
    repeat (apply Forall_app; split);
      try apply write_log_own_stream; repeat constructor.
Qed.

(** Whatever is decoded and whatever the environment answers, every
    envelope of a session is written on the session's own stream and every
    relay it starts is with its own stream. *)
Theorem replies_stay_on_session (env : Env) (conn : Conn) (g : Globals) :
  Forall (own_stream conn) (handleConn env conn g).2.
Proof.
  destruct (Decode env conn) as [err | [ty p]] eqn:Hdec.
  { unfold handleConn, run, handleConn_body. rewrite Hdec. constructor. }
  destruct ty;
    try exact (listener_own_stream env conn g p Hdec);
    unfold handleConn, run, handleConn_body; rewrite Hdec; cbn [Type_ Payload];
    try (repeat constructor);
    destruct p; try (repeat constructor);
    unfold_cases; crunch; repeat constructor.
Qed.

(** *** Replies that cannot be written *)

Definition is_reply_request (d : string + Envelope) : bool :=
  match d with
  | inr {| Type_ := MessageConnectRequest; Payload := PConnectRequest _ |}
  | inr {| Type_ := MessageHostPingRequest; Payload := PHostPingRequest _ |}
  | inr {| Type_ := MessageListenerSockRequest; Payload := PListenerSockRequest _ |} => true
  | _ => false
  end.

(** When the reply to a connect, ping or sock request cannot be written,
    the handler logs the write error as fatal and the agent process exits
    with code 1; nothing is relayed, also when the dial had succeeded or the
    socket was parked. *)
Theorem failed_reply_is_fatal (env : Env) (conn : Conn) (g : Globals) (err : string) :
  is_reply_request (Decode env conn) = true →
  (∀ e, Encode env conn e = Some err) →
  ∃ before,
    handleConn env conn g = (Exited 1, g, before ++ [EvLog FatalLevel err])
    ∧ ∀ a b, EvRelay a b ∉ before.
Proof.
  unfold is_reply_request, handleConn, run, handleConn_body.
  destruct (Decode env conn) as [e0 | [ty p]]; [discriminate|].
  cbn [Type_ Payload]. intros Hty Henc.
  destruct ty; try discriminate; destruct p; try discriminate;
    unfold_cases; rewrite !Henc; cbn.
  - eexists [_; _; _]. split; [reflexivity | not_in_events].
  - eexists [_]. split; [reflexivity | not_in_events].
  - eexists [_]. split; [reflexivity | not_in_events].
Qed.

(** When the interfaces cannot be listed, an info request gets no reply:
    the handler logs the failure and returns.  (The user lookup is not
    reached in a way that panics: the host name failed, or the user is
    known.) *)
Theorem info_without_interfaces (env : Env) (conn : Conn) (g : Globals) (err : string) :
  Decode env conn = inr (request MessageInfoRequest PInfoRequest) →
  net_Interfaces env = inl err →
  (∃ e, Hostname env = inl e) ∨ (∃ u, Current env = inr u) →
  handleConn env conn g =
    (Returned, g, [EvLog ErrorLevel "could not get network interfaces"]).
Proof.
  intros Hdec Hifs Hok. run_handler Hdec. rewrite Hifs.
  destruct Hok as [[e He] | [u Hu]].
  - rewrite He. reflexivity.
  - rewrite Hu. destruct (Hostname env); reflexivity.
Qed.

Definition is_response_type (t : MessageType) : bool :=
  match t with
  | MessageConnectResponse | MessageHostPingResponse | MessageInfoReply
  | MessageListenerResponse | MessageListenerBindResponse
  | MessageListenerSockResponse | MessageListenerCloseResponse => true
  | _ => false
  end.

(** An envelope of any of the seven response types is read and dropped:
    the handler returns without a reply, a log line or a change. *)
Theorem responses_are_dropped (env : Env) (conn : Conn) (g : Globals) (e : Envelope) :
  Decode env conn = inr e →
  is_response_type (Type_ e) = true →
  handleConn env conn g = (Returned, g, []).
Proof.
  intros Hdec Hty. unfold handleConn, run, handleConn_body. rewrite Hdec.
  destruct (Type_ e); try discriminate Hty; reflexivity.
Qed.

(** *** The loop of [main] over many sessions *)

Lemma serve_cons (env : Env) (conn : Conn) (sessions : list (Env * Conn)) (g : Globals) :
  serve ((env, conn) :: sessions) g =
    if terminates_process (handleConn env conn g).1.1
    then (Ended (handleConn env conn g).1.1, (handleConn env conn g).1.2,
          (handleConn env conn g).2)
    else ((serve sessions (handleConn env conn g).1.2).1,
          (handleConn env conn g).2 ++ (serve sessions (handleConn env conn g).1.2).2).
Proof.
  cbn [serve]. destruct (handleConn env conn g) as [[o g1] t1]. cbn [fst snd].
  destruct (terminates_process o); [reflexivity|].
  destruct (serve sessions g1) as [[p g2] t2]. reflexivity.
Qed.

(** Serving two runs of sessions one after the other: if the first run
    leaves the agent serving, the second starts from the tables the first
    left and its events follow; if a session of the first run ended the
    process, the second run is not served at all. *)
Theorem serve_app (s1 s2 : list (Env * Conn)) (g : Globals) :
  serve (s1 ++ s2) g =
    match (serve s1 g).1.1 with
    | Serving =>
        ((serve s2 (serve s1 g).1.2).1, (serve s1 g).2 ++ (serve s2 (serve s1 g).1.2).2)
    | Ended o => serve s1 g
    end.
Proof.
  revert g. induction s1 as [|[env conn] s1 IH]; intros g.
  - cbn. destruct (serve s2 g) as [[p g2] t2]. reflexivity.
  - rewrite <- app_comm_cons, !serve_cons.
    destruct (terminates_process (handleConn env conn g).1.1); [reflexivity|].
    rewrite IH. cbn [fst snd].
    destruct (serve s1 (handleConn env conn g).1.2) as [[[|o] g1] t1]; cbn [fst snd].
    + rewrite app_assoc. reflexivity.
    + reflexivity.
Qed.

(** Over any number of sessions: no id is taken out of the conntrack
    table, every connect response that is written with established set has
    reset clear, and unless one of the sessions is a listener session the
    tables and counters end as they started. *)
Theorem serve_keeps (sessions : list (Env * Conn)) (g : Globals) :
  (∀ k, is_Some (listenerConntrack g !! k) →
        is_Some (listenerConntrack (serve sessions g).1.2 !! k))
  ∧ Forall reply_ok (serve sessions g).2
  ∧ (Forall (λ s, is_listener_request (Decode s.1 s.2) = false) sessions →
     (serve sessions g).1.2 = g).
Proof.
  revert g. induction sessions as [|[env conn] sessions IH]; intros g.
  - cbn. split; [auto|]. split; [constructor | reflexivity].
  - rewrite serve_cons.
    pose proof (conntrack_keys_stay env conn g) as Hkeys.
    pose proof (replies_ok env conn g) as Hrep.
    destruct (IH (handleConn env conn g).1.2) as (IHkeys & IHrep & IHsame).
    destruct (terminates_process (handleConn env conn g).1.1); cbn [fst snd].
    + split; [exact Hkeys|]. split; [exact Hrep|].
      intros Hall. apply Forall_cons in Hall as [H1 _].
      apply only_listener_sessions_write_run. exact H1.
    + split; [intros k Hk; apply IHkeys, Hkeys, Hk|].
      split; [apply Forall_app; split; assumption|].
      intros Hall. apply Forall_cons in Hall as [H1 H2].
      rewrite (IHsame H2). apply only_listener_sessions_write_run. exact H1.
Qed.

(** *** The counters and the ids *)

(** Both counters and every id in either table are int32 values. *)
Definition ids_in_range (g : Globals) : Prop :=
  int32 (connTrackID g)
  ∧ int32 (listenerID g)
  ∧ (∀ k, is_Some (listenerConntrack g !! k) → int32 k)
  ∧ (∀ k, is_Some (listenerMap g !! k) → int32 k).

Lemma acceptOne_ids_in_range (env : Env) (conn c : Conn) (g : Globals) :
  ids_in_range g → ids_in_range (acceptOne env conn c g).1.2.
Proof.
  intros (Hc & Hl & Hct & Hlm). rewrite acceptOne_run. cbn [fst snd].
  pose proof (incr32_in_range (connTrackID g)) as Hnew.
  unfold ids_in_range. cbn [connTrackID listenerID listenerConntrack listenerMap].
  split; [exact Hnew|]. split; [exact Hl|]. split; [|exact Hlm].
  intros k Hk. destruct (decide (incr32 (connTrackID g) = k)) as [<- | Hne].
  - exact Hnew.
  - rewrite lookup_insert_ne in Hk by exact Hne. exact (Hct k Hk).
Qed.

Lemma register_ids_in_range (l : Listener) (g : Globals) :
  ids_in_range g → ids_in_range (register l g).
Proof.
  intros (Hc & Hl & Hct & Hlm).
  pose proof (incr32_in_range (listenerID g)) as Hnew.
  unfold ids_in_range, register.
  cbn [connTrackID listenerID listenerConntrack listenerMap].
  split; [exact Hc|]. split; [exact Hnew|]. split; [exact Hct|].
  intros k Hk. destruct (decide (listenerID g = k)) as [<- | Hne].
  - exact Hl.
  - rewrite lookup_insert_ne in Hk by exact Hne. exact (Hlm k Hk).
Qed.

Lemma handleConn_ids_in_range (env : Env) (conn : Conn) (g : Globals) :
  ids_in_range g → ids_in_range (handleConn env conn g).1.2.
Proof.
  intros Hg.
  pose (Inv := λ (g1 : Globals) (_ : list Event), ids_in_range g1).
  assert (Hkeeps : keeps Inv (handleConn_body env conn)).
  { apply keeps_handleConn_body; unfold Inv.
    - intros e _ g0 t H0. exact H0.
    - intros p _ g0 t H0. exact H0.
    - intros c g0 t H0. apply acceptOne_ids_in_range, H0.
    - intros l g0 t H0. apply register_ids_in_range, H0. }
  exact (keeps_run Inv _ g [] Hkeeps Hg).
Qed.

(** In a running agent both counters stay in the int32 range, wrap-around
    included, and so does every id under which a socket is parked or a
    listener registered. *)
Theorem reachable_ids_in_range (g : Globals) (t : list Event) :
  reachable g t → ids_in_range g.
Proof.
  induction 1 as [| env conn g t _ IH _ | env conn c g t _ IH].
  - unfold ids_in_range, int32. cbn.
    split; [lia|]. split; [lia|].
    split; intros k [x Hx]; rewrite lookup_empty in Hx; discriminate Hx.
  - apply handleConn_ids_in_range, IH.
  - apply acceptOne_ids_in_range, IH.
Qed.

(** *** The theorems at concrete sessions *)

Definition listenRequest : ListenerRequestPacket :=
  {| lreq_Network := "tcp"; lreq_Address := "0.0.0.0:2222" |}.

(** The listener request on a port that is taken, and the one whose
    listener accepts socket 42 and is then closed. *)
Definition busyEnv : Env :=
  withRequest quietEnv MessageListenerRequest (PListenerRequest listenRequest).

Definition stoppedEnv : Env :=
  withListener busyEnv (inr 5) [42] (Some "use of closed network connection").

(** The last id of the int32 range has been given out. *)
Definition lastIdGlobals : Globals :=
  {| listenerConntrack := ∅; listenerMap := ∅; connTrackID := 2147483647; listenerID := 0 |}.

(** A connect request whose dial succeeds on a session that cannot be
    written, and an info request on a host whose interfaces cannot be
    listed. *)
Definition brokenEnv : Env :=
  {| Decode := Decode acceptedEnv;
     Encode := λ _ _, Some "broken pipe";
     DialContext := DialContext acceptedEnv;
     HostResponded := HostResponded acceptedEnv;
     TryResolve := TryResolve acceptedEnv;
     Hostname := Hostname acceptedEnv;
     Current := Current acceptedEnv;
     net_Interfaces := net_Interfaces acceptedEnv;
     NewNetInterfaces := NewNetInterfaces acceptedEnv;
     net_Listen := net_Listen acceptedEnv;
     Close := Close acceptedEnv;
     accepted := accepted acceptedEnv;
     accept_error := accept_error acceptedEnv |}.

Definition noInterfacesEnv : Env :=
  {| Decode := λ _, inr (request MessageInfoRequest PInfoRequest);
     Encode := Encode quietEnv;
     DialContext := DialContext quietEnv;
     HostResponded := HostResponded quietEnv;
     TryResolve := TryResolve quietEnv;
     Hostname := Hostname quietEnv;
     Current := Current quietEnv;
     net_Interfaces := inl "route ip+net: netlinkrib: permission denied";
     NewNetInterfaces := NewNetInterfaces quietEnv;
     net_Listen := net_Listen quietEnv;
     Close := Close quietEnv;
     accepted := accepted quietEnv;
     accept_error := accept_error quietEnv |}.

Lemma listener_open_failure_witness :
  handleConn busyEnv 3 initGlobals =
    (Returned, initGlobals,
     [EvListen "tcp" "0.0.0.0:2222";
      EvEncode 3 (listenerResponse {| lresp_ListenerID := 0; lresp_Err := true;
                                      lresp_ErrString := "address already in use" |})]).
Proof.
  exact (listener_open_failure busyEnv 3 initGlobals listenRequest
           "address already in use" eq_refl eq_refl).
Defined.

Lemma listener_registers_witness :
  listenerMap (handleConn listenEnv 3 initGlobals).1.2 = <[0 := 5]> ∅
  ∧ listenerID (handleConn listenEnv 3 initGlobals).1.2 = 1.
Proof.
  destruct (listener_registers listenEnv 3 initGlobals listenRequest 5 eq_refl eq_refl)
    as (Hmap & Hid & _).
  split; [exact Hmap | exact Hid].
Defined.

Lemma listener_session_end_witness :
  (handleConn stoppedEnv 3 initGlobals).1.1 = Returned
  ∧ listenerMap (handleConn stoppedEnv 3 initGlobals).1.2 !! 0 = Some 5.
Proof.
  destruct (listener_session_end stoppedEnv 3 initGlobals listenRequest 5 eq_refl eq_refl)
    as ((Hret & _) & Hreg).
  split; [exact Hret | exact Hreg].
Defined.

Lemma registered_listener_is_closed_witness :
  ∃ logs,
    handleConn (closeEnv 0) 8 (handleConn listenEnv 3 initGlobals).1.2 =
      (Returned, (handleConn listenEnv 3 initGlobals).1.2,
       [EvListenerClose 5;
        EvEncode 8 (closeResponse {| clresp_Err := false; clresp_ErrString := "" |})]
       ++ logs).
Proof.
  destruct (registered_listener_is_closed listenEnv (closeEnv 0) 3 8 initGlobals
              listenRequest 5 eq_refl eq_refl eq_refl) as (logs & Hrun & _).
  exists logs. exact Hrun.
Defined.

Lemma second_listener_keeps_first_witness :
  listenerMap (handleConn stoppedEnv 4 (handleConn listenEnv 3 initGlobals).1.2).1.2 !! 0
    = Some 5
  ∧ listenerMap (handleConn stoppedEnv 4 (handleConn listenEnv 3 initGlobals).1.2).1.2 !! 1
    = Some 5.
Proof.
  destruct (second_listener_keeps_first listenEnv stoppedEnv 3 4 initGlobals
              listenRequest listenRequest 5 5 eq_refl eq_refl eq_refl eq_refl)
    as (H1 & H2 & _).
  split; [exact H1 | exact H2].
Defined.

Lemma conntrack_id_wraps_witness :
  listenerConntrack (handleConn listenEnv 3 lastIdGlobals).1.2 !! (-2147483648) = Some 42
  ∧ announced_ids (handleConn listenEnv 3 lastIdGlobals).2 = [-2147483648].
Proof.
  destruct (conntrack_id_wraps listenEnv 3 lastIdGlobals listenRequest 5 42
              eq_refl eq_refl eq_refl eq_refl) as (Hpark & _ & Hann).
  split; [exact Hpark | exact Hann].
Defined.

Lemma only_listener_sessions_write_witness :
  (handleConn pingEnv 2 parkedGlobals).1.2 = parkedGlobals.
Proof. exact (only_listener_sessions_write pingEnv 2 parkedGlobals eq_refl). Defined.

Lemma failed_reply_is_fatal_witness :
  ∃ before,
    handleConn brokenEnv 7 initGlobals
      = (Exited 1, initGlobals, before ++ [EvLog FatalLevel "broken pipe"])
    ∧ ∀ a b, EvRelay a b ∉ before.
Proof.
  exact (failed_reply_is_fatal brokenEnv 7 initGlobals "broken pipe" eq_refl (λ _, eq_refl)).
Defined.

Lemma info_without_interfaces_witness :
  handleConn noInterfacesEnv 7 initGlobals =
    (Returned, initGlobals, [EvLog ErrorLevel "could not get network interfaces"]).
Proof.
  exact (info_without_interfaces noInterfacesEnv 7 initGlobals _ eq_refl eq_refl
           (or_intror (ex_intro _ {| Username := "root" |} eq_refl))).
Defined.

Lemma responses_are_dropped_witness :
  handleConn (withRequest quietEnv MessageListenerBindResponse PClose) 7 parkedGlobals
    = (Returned, parkedGlobals, []).
Proof.
  exact (responses_are_dropped (withRequest quietEnv MessageListenerBindResponse PClose)
           7 parkedGlobals _ eq_refl eq_refl).
Defined.

Lemma reachable_ids_in_range_witness : ids_in_range parkedGlobals.
Proof. exact (reachable_ids_in_range parkedGlobals parkedEvents parked_reachable). Defined.

End agent_sessions.

(** ** More of the stack host: the kinds of tun-connections, the
    failures of [new], what [new] registers, the pool behind its pointer *)

Module netstack_host.
Import netstack netstack_props.

(** *** The kinds of tun-connections *)

(** A tun-connection is of one kind at most, and a tun-connection of
    ICMPv6 is of none: [IsICMP] reads the ICMPv4 number only. *)
Theorem kinds_exclude (t : TunConn) :
  (IsTCP t = true → IsUDP t = false ∧ IsICMP t = false)
  ∧ (IsUDP t = true → IsTCP t = false ∧ IsICMP t = false)
  ∧ (IsICMP t = true → IsTCP t = false ∧ IsUDP t = false)
  ∧ (Protocol t = icmp_ProtocolNumber6 →
     IsTCP t = false ∧ IsUDP t = false ∧ IsICMP t = false).
Proof.
  unfold IsTCP, IsUDP, IsICMP, tcp_ProtocolNumber, udp_ProtocolNumber,
    icmp_ProtocolNumber4, icmp_ProtocolNumber6.
  repeat split; intros; lia.
Qed.

(** *** [new]: failures *)


(** *** [new]: what is registered *)

(** The stack at the end of [new], for the link endpoint of the TUN
    device: nothing in it is left at a default of the library. *)
Definition built_stack (linkEP : LinkEndpoint) : Stack :=
  {| NetworkProtocols := [ipv4_ProtocolNumber; ipv6_ProtocolNumber];
     TransportProtocols :=
       [tcp_ProtocolNumber; udp_ProtocolNumber; icmp_ProtocolNumber4; icmp_ProtocolNumber6];
     HandleLocal := false;
     icmpLimit := 0;
     icmpBurst := 0;
     transportHandlers :=
       <[udp_ProtocolNumber := UDPForwarder]>
         (<[tcp_ProtocolNumber := TCPForwarder 0 4096]> ∅);
     nics :=
       {[ 1 := {| nic_endpoint := linkEP; Promiscuous := true; Spoofing := true;
                  nic_forwarding :=
                    <[ipv6_ProtocolNumber := false]>
                      (<[ipv4_ProtocolNumber := false]> ∅) |} ]};
     routeTable := default_routes;
     defaultForwarding :=
       <[ipv6_ProtocolNumber := false]> (<[ipv4_ProtocolNumber := false]> ∅);
     TCPSACKEnabled := false;
     TCPAlwaysUseSynCookies := false |}.

Lemma new_ok_inv {P} `{ConnPoolOps P} (env : HostEnv) (s : NetStack P)
    (tunName : string) (s1 : NetStack P) :
  new env s tunName = Ok s1 →
  ∃ mtu fd linkEP,
    rawfile_GetMTU env tunName = inr mtu
    ∧ tun_Open env tunName = inr fd
    ∧ fdbased_New env [fd] mtu = inr linkEP
    ∧ s1 = {| pool := pool s; stack := Some (built_stack linkEP) |}.
Proof.
  unfold new.
  destruct (rawfile_GetMTU env tunName) as [e|mtu]; [discriminate|].
  destruct (tun_Open env tunName) as [e|fd]; [discriminate|].
  destruct (fdbased_New env [fd] mtu) as [e|linkEP] eqn:Hep; [discriminate|].
  cbv zeta.
  destruct (CreateNIC 1 linkEP _) as [e | ns1] eqn:Hnic; [discriminate|].
  destruct (icmpResponder env ns1) as [e|]; [discriminate|].
  intros [= <-]. exists mtu, fd, linkEP. repeat split; try exact Hep.
  vm_compute in Hnic. injection Hnic as <-.
  vm_compute. reflexivity.
Qed.

(** The stack that [new] returns has IPv4 and IPv6 as network protocols,
    TCP, UDP, ICMPv4 and ICMPv6 as transport protocols and local handling
    off; its TCP packets go to a forwarder with the default window and 4096
    requests in flight, its UDP packets to the UDP forwarder, no handler is
    registered for another protocol, and NIC 1 is its only NIC.  The pool of
    the stack host is the one it had. *)
Theorem new_registers_forwarders {P} `{ConnPoolOps P} (env : HostEnv) (s : NetStack P)
    (tunName : string) (s1 : NetStack P) :
  new env s tunName = Ok s1 →
  pool s1 = pool s
  ∧ ∃ ns, stack s1 = Some ns
      ∧ NetworkProtocols ns = [ipv4_ProtocolNumber; ipv6_ProtocolNumber]
      ∧ TransportProtocols ns
        = [tcp_ProtocolNumber; udp_ProtocolNumber; icmp_ProtocolNumber4; icmp_ProtocolNumber6]
      ∧ HandleLocal ns = false
      ∧ transportHandlers ns !! tcp_ProtocolNumber = Some (TCPForwarder 0 4096)
      ∧ transportHandlers ns !! udp_ProtocolNumber = Some UDPForwarder
      ∧ (∀ p, p ≠ tcp_ProtocolNumber → p ≠ udp_ProtocolNumber →
              transportHandlers ns !! p = None)
      ∧ (∀ id, is_Some (nics ns !! id) ↔ id = 1).
Proof.
  intros Hnew. destruct (new_ok_inv env s tunName s1 Hnew) as (mtu & fd & linkEP & _ & _ & _ & ->).
  split; [reflexivity|]. exists (built_stack linkEP).
  split; [reflexivity|]. split; [reflexivity|]. split; [reflexivity|].
  split; [reflexivity|]. cbn [built_stack transportHandlers nics].
  split; [rewrite lookup_insert_ne by discriminate; apply lookup_insert_eq|].
  split; [apply lookup_insert_eq|].
  split.
  - intros p Htcp Hudp. rewrite !lookup_insert_ne by congruence. apply lookup_empty.
  - intros id. split.
    + intros [nic Hnic]. apply lookup_singleton_Some in Hnic as [<- _]. reflexivity.
    + intros ->. rewrite lookup_singleton_eq. eauto.
Qed.

(** The stack that [new] builds is the same whatever the defaults of the
    library are: two hosts that differ in them alone build equal stacks. *)
Theorem new_overrides_defaults {P} `{ConnPoolOps P} (env1 env2 : HostEnv) (s : NetStack P)
    (tunName : string) (s1 s2 : NetStack P) :
  rawfile_GetMTU env1 tunName = rawfile_GetMTU env2 tunName →
  tun_Open env1 tunName = tun_Open env2 tunName →
  (∀ fds mtu, fdbased_New env1 fds mtu = fdbased_New env2 fds mtu) →
  new env1 s tunName = Ok s1 →
  new env2 s tunName = Ok s2 →
  s1 = s2.
Proof.
  intros Hmtu Hfd Hep Hnew1 Hnew2.
  destruct (new_ok_inv env1 s tunName s1 Hnew1) as (mtu1 & fd1 & ep1 & Hm1 & Hf1 & He1 & ->).
  destruct (new_ok_inv env2 s tunName s2 Hnew2) as (mtu2 & fd2 & ep2 & Hm2 & Hf2 & He2 & ->).
  rewrite Hmtu, Hm2 in Hm1. injection Hm1 as <-.
  rewrite Hfd, Hf2 in Hf1. injection Hf1 as <-.
  rewrite Hep, He2 in He1. injection He1 as <-. reflexivity.
Qed.

(** *** The pool behind its pointer *)

(** [NetStack.pool] is a [*ConnPool].  A stack host of type [NetStack Z]
    holds the address of its pool (or nil), a store gives the pool at every
    address, and a callback runs on the pool it loads and writes that pool
    back. *)
Section pointers.
Context {P : Type} `{ConnPoolOps P}.

Definition load (h : Z → P) (s : NetStack Z) : NetStack P :=
  {| pool := h <$> pool s; stack := stack s |}.

Definition write_back (h : Z → P) (s : NetStack Z) (s1 : NetStack P) : Z → P :=
  match pool s, pool s1 with
  | Some a, Some p1 => λ b, if bool_decide (b = a) then p1 else h b
  | _, _ => h
  end.

Definition tcpForwarderCallbackAt (h : Z → P) (s : NetStack Z) (request : ForwarderRequest)
  : (Z → P) * list Event :=
  (write_back h s (tcpForwarderCallback (load h s) request).1,
   (tcpForwarderCallback (load h s) request).2).

Definition udpForwarderCallbackAt (h : Z → P) (s : NetStack Z) (request : ForwarderRequest)
  : (Z → P) * list Event :=
  (write_back h s (udpForwarderCallback (load h s) request).1,
   (udpForwarderCallback (load h s) request).2).

Lemma forward_at (h : Z → P) (s : NetStack Z) (tc : TunConn) (a : Z) :
  write_back h s (forward (load h s) tc).1 a =
    if bool_decide (pool s = Some a)
    then (if Closed (h a) then h a else (Add (h a) tc).1)
    else h a.
Proof.
  unfold write_back, forward, load. destruct (pool s) as [b|] eqn:Hp; cbn.
  - destruct (Closed (h b)) eqn:Hc; cbn.
    + repeat case_bool_decide; try congruence.
      subst. rewrite Hc. reflexivity.
    + destruct (Add (h b) tc) as [p1 [err|]] eqn:Hadd; cbn;
        repeat case_bool_decide; try congruence;
        subst; rewrite Hc, Hadd; reflexivity.
  - case_bool_decide; [discriminate | reflexivity].
Qed.

(** After [SetConnPool], a flow that a callback forwards reaches the pool
    that was installed, if it is open, and no other pool: the pool that was
    replaced is left as it was, neither closed nor added to, and with nil
    installed no pool changes.  [SetConnPool] leaves the stack handle as it
    was. *)
Theorem swap_redirects_flows (h : Z → P) (s : NetStack Z) (connPool : option Z)
    (request : ForwarderRequest) (a : Z) :
  stack (SetConnPool s connPool).1 = stack s
  ∧ (tcpForwarderCallbackAt h (SetConnPool s connPool).1 request).1 a =
      (if bool_decide (connPool = Some a)
       then (if Closed (h a) then h a else (Add (h a) (tcpTunConn request)).1)
       else h a)
  ∧ (udpForwarderCallbackAt h (SetConnPool s connPool).1 request).1 a =
      (if bool_decide (connPool = Some a)
       then (if Closed (h a) then h a else (Add (h a) (udpTunConn request)).1)
       else h a).
Proof.
  split; [reflexivity|].
  split.
  - exact (forward_at h (SetConnPool s connPool).1 (tcpTunConn request) a).
  - exact (forward_at h (SetConnPool s connPool).1 (udpTunConn request) a).
Qed.

End pointers.

(** *** The theorems at concrete hosts *)

(** A host whose TUN device does not exist. *)
Definition noTunHost : HostEnv :=
  {| rawfile_GetMTU := λ _, inl "no such device";
     tun_Open := tun_Open tunHost;
     fdbased_New := fdbased_New tunHost;
     icmpResponder := icmpResponder tunHost;
     library_defaults := library_defaults tunHost |}.

(** The host of [tunHost] with a library of other defaults. *)
Definition otherDefaultsHost : HostEnv :=
  {| rawfile_GetMTU := rawfile_GetMTU tunHost;
     tun_Open := tun_Open tunHost;
     fdbased_New := fdbased_New tunHost;
     icmpResponder := icmpResponder tunHost;
     library_defaults :=
       {| default_icmpLimit := 0; default_icmpBurst := 0;
          default_TCPSACKEnabled := false; default_TCPAlwaysUseSynCookies := false |} |}.

Definition freshHost : NetStack SpecPool :=
  {| pool := Some {| closed := false; queue := [] |}; stack := None |}.

Example new_without_device : new noTunHost freshHost "ligolo" = Fatal "no such device".
Proof. reflexivity. Qed.

Lemma new_registers_forwarders_witness :
  new tunHost freshHost "ligolo" = Ok {| pool := pool freshHost; stack := Some (built_stack 9) |}
  ∧ ∃ ns, Some (built_stack 9) = Some ns
          ∧ transportHandlers ns !! tcp_ProtocolNumber = Some (TCPForwarder 0 4096).
Proof.
  assert (Hnew : new tunHost freshHost "ligolo"
                 = Ok {| pool := pool freshHost; stack := Some (built_stack 9) |})
    by (vm_compute; reflexivity).
  split; [exact Hnew|].
  destruct (new_registers_forwarders tunHost freshHost "ligolo" _ Hnew)
    as (_ & ns & Hns & _ & _ & _ & Htcp & _).
  exists ns. split; [exact Hns | exact Htcp].
Defined.

Lemma new_overrides_defaults_witness :
  new tunHost freshHost "ligolo" = new otherDefaultsHost freshHost "ligolo".
Proof.
  assert (H1 : new tunHost freshHost "ligolo"
               = Ok {| pool := pool freshHost; stack := Some (built_stack 9) |})
    by (vm_compute; reflexivity).
  assert (H2 : new otherDefaultsHost freshHost "ligolo"
               = Ok {| pool := pool freshHost; stack := Some (built_stack 9) |})
    by (vm_compute; reflexivity).
  rewrite H1, H2.
  exact (f_equal Ok (new_overrides_defaults tunHost otherDefaultsHost freshHost "ligolo"
                       _ _ eq_refl eq_refl (λ _ _, eq_refl) H1 H2)).
Defined.

End netstack_host.

(** ** [main], lines 27-74 *)

Module agent_main.
Import agent agent_props agent_sessions.

(** The flags, as [flag.Parse] has read them. *)
Record Flags := {
  ignore_cert : bool;
  v : bool;
  connect : string
}.

(** What [main] asks of the libraries, and the sessions the multiplexer
    accepts before its [Accept] fails. *)
Record MainEnv := {
  (** [net.SplitHostPort(addr)]: the error, if there is one *)
  net_SplitHostPort : string → option string;
  (** [tls.Dial(network, addr, config)], by [config.InsecureSkipVerify] *)
  tls_Dial : string → string → bool → string + Conn;
  (** [yamux.Server(conn, yamux.DefaultConfig())]: the error, if there is one *)
  yamux_Server : Conn → option string;
  sessions : list (Env * Conn);
  yamux_Accept_error : string
}.

Inductive MainEvent :=
| MvSetReportCaller (include : bool)
| MvSetLevelDebug
| MvWarn (msg : string)
| MvError (msg : string)
| MvFatal (msg : string)
| MvTLSDial (network addr : string) (InsecureSkipVerify : bool)
| MvYamuxServer (conn : Conn)
| MvHandler (e : Event).

(** How the process ends: [main] returns, a fatal log exits, or a handler
    ends it. *)
Inductive Exit :=
| MainReturned
| MainFatal
| HandlerEnded (o : Outcome).

Definition main (flags : Flags) (env : MainEnv) : Exit * list MainEvent :=
  let ignoreCertificate := ignore_cert flags in
  let verbose := v flags in
  let serverAddr := connect flags in
  let t := [MvSetReportCaller verbose] in
  let t := if verbose then t ++ [MvSetLevelDebug] else t in
  if bool_decide (serverAddr = "") then
    (MainFatal, t ++ [MvFatal "please, specify the target host user -connect host:port"])
  else
    match net_SplitHostPort env serverAddr with
    | Some _ =>
        (MainFatal, t ++ [MvFatal "invalid connect address, please using host:port"])
    | None =>
        let InsecureSkipVerify := false in
        let t :=
          if ignoreCertificate
          then t ++ [MvWarn "warning, certificate validation disabled"]
          else t in
        let InsecureSkipVerify := if ignoreCertificate then true else InsecureSkipVerify in
        let t := t ++ [MvTLSDial "tcp" serverAddr InsecureSkipVerify] in
        match tls_Dial env "tcp" serverAddr InsecureSkipVerify with
        | inl err => (MainFatal, t ++ [MvFatal err])
        | inr dialer =>
            let t := t ++ [MvYamuxServer dialer] in
            match yamux_Server env dialer with
            | Some err => (MainFatal, t ++ [MvFatal err])
            | None =>
                match serve (sessions env) initGlobals with
                | (Ended o, _, events) => (HandlerEnded o, t ++ (MvHandler <$> events))
                | (Serving, _, events) =>
                    (MainReturned,
                     t ++ (MvHandler <$> events) ++ [MvError (yamux_Accept_error env)])
                end
            end
        end
    end.

(** The TLS dials among the events. *)
Definition is_dial (e : MainEvent) : bool :=
  match e with MvTLSDial _ _ _ => true | _ => false end.

Definition is_warning (e : MainEvent) : bool :=
  match e with MvWarn _ => true | _ => false end.

Definition is_handler (e : MainEvent) : bool :=
  match e with MvHandler _ => true | _ => false end.

Lemma filter_handlers_none (f : MainEvent → bool) (events : list Event) :
  (∀ e, f (MvHandler e) = false) →
  filter (λ e, f e = true) (MvHandler <$> events) = [].
Proof.
  intros Hf. induction events as [|e events IH]; [reflexivity|].
  cbn [fmap list_fmap]. rewrite filter_cons_False by (rewrite Hf; discriminate).
  exact IH.
Qed.

(** [main] dials at most once, over TCP, to the address of the connect
    flag, and with certificate validation off exactly when the ignore-cert
    flag is set, in which case the warning is logged before the dial. *)
Theorem main_dials_as_flagged (flags : Flags) (env : MainEnv) :
  filter (λ e, is_dial e = true) (main flags env).2 = []
  ∨ (filter (λ e, is_dial e = true) (main flags env).2
       = [MvTLSDial "tcp" (connect flags) (ignore_cert flags)]
     ∧ filter (λ e, is_warning e = true) (main flags env).2
       = (if ignore_cert flags
          then [MvWarn "warning, certificate validation disabled"] else [])).
Proof.
  assert (Hd : ∀ events, filter (λ e, is_dial e = true) (MvHandler <$> events) = []).
  { intros events. apply filter_handlers_none. reflexivity. }
  assert (Hw : ∀ events, filter (λ e, is_warning e = true) (MvHandler <$> events) = []).
  { intros events. apply filter_handlers_none. reflexivity. }
  unfold main. cbv zeta.
  case_bool_decide as Haddr.
  { left. destruct (v flags); reflexivity. }
  destruct (net_SplitHostPort env (connect flags)).
  { left. destruct (v flags); reflexivity. }
  right.
  destruct (tls_Dial env "tcp" (connect flags) _) as [err | dialer].
  { destruct (v flags), (ignore_cert flags); split; reflexivity. }
  destruct (yamux_Server env dialer).
  { destruct (v flags), (ignore_cert flags); split; reflexivity. }
  destruct (serve (sessions env) initGlobals) as [[[|o] g] events]; cbn [snd];
    rewrite !filter_app, ?Hd, ?Hw;
    destruct (v flags), (ignore_cert flags); split; reflexivity.
Qed.

(** [main] starts no handler and dials nothing when the connect flag is
    empty or is not a host-port pair: it exits on a fatal log. *)
Theorem main_rejects_bad_address (flags : Flags) (env : MainEnv) :
  connect flags = "" ∨ is_Some (net_SplitHostPort env (connect flags)) →
  (main flags env).1 = MainFatal
  ∧ filter (λ e, is_dial e = true) (main flags env).2 = []
  ∧ filter (λ e, is_handler e = true) (main flags env).2 = [].
Proof.
  intros Hbad. unfold main. cbv zeta.
  case_bool_decide as Haddr.
  { destruct (v flags); repeat split. }
  destruct Hbad as [Hempty | [err Herr]]; [contradiction|].
  rewrite Herr. destruct (v flags); repeat split.
Qed.

(** Once connected, [main] serves the sessions from empty tables and zero
    counters: the events of the handlers are those of [serve] from
    [initGlobals], and the process ends with the first handler that ends it,
    or with [main] returning after the multiplexer's Accept has failed. *)
Theorem main_serves_from_empty_tables (flags : Flags) (env : MainEnv) (dialer : Conn) :
  connect flags ≠ "" →
  net_SplitHostPort env (connect flags) = None →
  tls_Dial env "tcp" (connect flags) (ignore_cert flags) = inr dialer →
  yamux_Server env dialer = None →
  filter (λ e, is_handler e = true) (main flags env).2
    = MvHandler <$> (serve (sessions env) initGlobals).2
  ∧ (main flags env).1
    = match (serve (sessions env) initGlobals).1.1 with
      | Serving => MainReturned
      | Ended o => HandlerEnded o
      end.
Proof.
  intros Haddr Hsplit Hdial Hmux.
  assert (Hh : ∀ events : list Event,
            filter (λ e, is_handler e = true) (MvHandler <$> events) = MvHandler <$> events).
  { induction events as [|e events IH]; [reflexivity|].
    cbn [fmap list_fmap]. rewrite filter_cons_True by reflexivity.
    f_equal. exact IH. }
  unfold main. cbv zeta.
  rewrite bool_decide_eq_false_2 by exact Haddr. rewrite Hsplit.
  assert (Hflag : (if ignore_cert flags then true else false) = ignore_cert flags)
    by (destruct (ignore_cert flags); reflexivity).
  rewrite Hflag, Hdial, Hmux.
  destruct (serve (sessions env) initGlobals) as [[[|o] g] events]; cbn [fst snd];
    rewrite !filter_app, ?Hh;
    destruct (v flags), (ignore_cert flags); cbn; rewrite ?app_nil_r; split; reflexivity.
Qed.

Definition agentFlags : Flags :=
  {| ignore_cert := false; v := false; connect := "proxy.example:11601" |}.

Definition reachableProxy : MainEnv :=
  {| net_SplitHostPort := λ _, None;
     tls_Dial := λ _ _ _, inr 1;
     yamux_Server := λ _, None;
     sessions := [(pingEnv, 2); (listenEnv, 3); (sockEnv 1, 7)];
     yamux_Accept_error := "EOF" |}.

Example main_run :
  main agentFlags reachableProxy =
    (MainReturned,
     [MvSetReportCaller false;
      MvTLSDial "tcp" "proxy.example:11601" false;
      MvYamuxServer 1]
     ++ (MvHandler <$> (serve [(pingEnv, 2); (listenEnv, 3); (sockEnv 1, 7)] initGlobals).2)
     ++ [MvError "EOF"]).
Proof. vm_compute. reflexivity. Qed.

Lemma main_rejects_bad_address_witness :
  (main {| ignore_cert := true; v := true; connect := "" |} reachableProxy).1 = MainFatal.
Proof.
  exact (proj1 (main_rejects_bad_address {| ignore_cert := true; v := true; connect := "" |}
                  reachableProxy (or_introl eq_refl))).
Defined.

Lemma main_serves_from_empty_tables_witness :
  (main agentFlags reachableProxy).1 = MainReturned.
Proof.
  exact (proj2 (main_serves_from_empty_tables agentFlags reachableProxy 1
                  ltac:(discriminate) eq_refl eq_refl eq_refl)).
Defined.

End agent_main.
